(** * DISSECT: semantic spaces and the full additive composition model

    A shallow embedding of [composes/semantic_space/space.py] and
    [composes/composition/full_additive.py].

    - Python exceptions are the constructors of [exn]; a call either returns
      ([Ok]) or raises ([Raise]).
    - Python lists, dicts and the operation log are objects of a store
      ([heap]) addressed by locations, so that [list(...)], [.copy()] and
      [.append(...)] keep their aliasing behaviour.
    - Methods are computations of the state monad [St]: over [world] (the
      store and the emitted warnings) for [Space], over the model object
      itself for [FullAdditive].
    - Matrix cells and similarity scores are elements of an arbitrary type
      of scalars [R] with the operations of the class [Scalar]. *)

From Stdlib Require Import ZArith Lia Sorting.Sorted Sorting.Permutation.
From stdpp Require Import base option list strings pretty gmap.

(** ** Exceptions and results *)

Inductive exn : Type :=
  (* Python's exception classes, with the message *)
  | ValueError (msg : string)
  | TypeError (msg : string)
  | AttributeError (msg : string)
  | IndexError (msg : string)
  (* the errors of the imported utility functions, by the names the
     specification gives them *)
  | TypeMismatch
  | ShapeMismatch
  | MappingMismatch
  | DuplicateKey.

(** The spec's names for the two ValueErrors [Space] raises itself. *)
Definition ColumnMismatch : exn := ValueError "Identical columns required".
Definition KeyNotFound (word : string) : exn :=
  ValueError ("Word not found in space rows: " +:+ word).

Inductive res (A : Type) : Type :=
  | Ok (a : A)
  | Raise (e : exn).
Arguments Ok {A} a.
Arguments Raise {A} e.

Definition res_bind {A B : Type} (r : res A) (k : A -> res B) : res B :=
  match r with
  | Ok a => k a
  | Raise e => Raise e
  end.

(** State monad with exceptions: the state survives a raise, as the
    mutations made before a Python exception do. *)
Definition St (S A : Type) : Type := S -> res A * S.

Definition ret {S A : Type} (a : A) : St S A := fun s => (Ok a, s).

Definition raise {S A : Type} (e : exn) : St S A := fun s => (Raise e, s).

Definition bind {S A B : Type} (m : St S A) (k : A -> St S B) : St S B :=
  fun s =>
    match m s with
    | (Ok a, s') => k a s'
    | (Raise e, s') => (Raise e, s')
    end.

Definition lift {S A : Type} (r : res A) : St S A := fun s => (r, s).

Definition get_state {S : Type} : St S S := fun s => (Ok s, s).

Definition put_state {S : Type} (s : S) : St S unit := fun _ => (Ok tt, s).

Declare Scope st_scope.
Delimit Scope st_scope with st.
Notation "'let*' x ':=' m 'in' k" := (bind m (fun x => k))
  (at level 10, x name, m at level 100, k at level 200) : st_scope.
Notation "'let*' ' p ':=' m 'in' k" :=
  (bind m (fun x => match x with p => k end))
  (at level 10, p pattern, m at level 100, k at level 200) : st_scope.
Notation "'let?' x ':=' r 'in' k" := (res_bind r (fun x => k))
  (at level 10, x name, r at level 100, k at level 200) : st_scope.
Open Scope st_scope.

(** ** Scalars *)

Class Scalar (R : Type) : Type := {
  zero : R;
  one : R;
  add : R -> R -> R;
  mul : R -> R -> R;
  leb : R -> R -> bool
}.

(** [leb] is a total preorder: the scores can be sorted. *)
Class ScalarOrder (R : Type) `{Scalar R} : Prop := {
  leb_total : forall x y : R, leb x y = true \/ leb y x = true;
  leb_trans : forall x y z : R, leb x y = true -> leb y z = true -> leb x z = true
}.

(** The two laws of addition that splitting a product into blocks relies
    on. *)
Class ScalarLaws (R : Type) `{Scalar R} : Prop := {
  scalar_add_assoc : forall x y z : R, add x (add y z) = add (add x y) z;
  scalar_add_zero_l : forall x : R, add zero x = x
}.

Section Model.

Context {R : Type} `{Scalar R}.

(** ** The matrix capability *)

(** Modelled from the spec: the matrix class ([composes.matrix.matrix]) is
    not among the sources. A matrix is a two-dimensional numeric container
    with a shape; its rows are kept as lists, the column count apart so that
    a matrix without rows still has one. *)
Record Matrix : Type := mkMatrix {
  ncols : nat;
  cells : list (list R)
}.

Definition nrows (m : Matrix) : nat := length (cells m).

Definition shape (m : Matrix) : nat * nat := (nrows m, ncols m).

(** Every row has [ncols] cells. *)
Definition mat_wf (m : Matrix) : bool :=
  forallb (fun r => Nat.eqb (length r) (ncols m)) (cells m).

(** Modelled from the spec: [m[i, :]], one row as a matrix. *)
Definition mat_getrow (m : Matrix) (i : nat) : res Matrix :=
  match cells m !! i with
  | Some r => Ok (mkMatrix (ncols m) [r])
  | None => Raise (IndexError "row index out of range")
  end.

Fixpoint lookup_all {A : Type} (l : list A) (ids : list nat) : res (list A) :=
  match ids with
  | [] => Ok []
  | i :: ids' =>
      match l !! i with
      | Some x => let? xs := lookup_all l ids' in Ok (x :: xs)
      | None => Raise (IndexError "row index out of range")
      end
  end.

(** Modelled from the spec: [m[row_ids, :]], indexing by a row-index list. *)
Definition mat_getrows (m : Matrix) (row_ids : list nat) : res Matrix :=
  let? rows := lookup_all (cells m) row_ids in
  Ok (mkMatrix (ncols m) rows).

(** Modelled from the spec: [m[i, j]]. *)
Definition mat_getcell (m : Matrix) (i j : nat) : res R :=
  match cells m !! i with
  | Some r =>
      match r !! j with
      | Some x => Ok x
      | None => Raise (IndexError "column index out of range")
      end
  | None => Raise (IndexError "row index out of range")
  end.

(** Modelled from the spec: the row slices [m[lo:hi, :]] and [m[lo:, :]];
    a slice is clipped to the rows there are. *)
Definition mat_slice_rows (m : Matrix) (lo : nat) (hi : option nat) : Matrix :=
  match hi with
  | Some h => mkMatrix (ncols m) (take (h - lo) (drop lo (cells m)))
  | None => mkMatrix (ncols m) (drop lo (cells m))
  end.

Definition dot (u v : list R) : R :=
  foldr (fun xy acc => add (mul xy.1 xy.2) acc) zero (zip u v).

Definition mat_col (m : Matrix) (j : nat) : list R :=
  map (fun r => default zero (r !! j)) (cells m).

(** Modelled from the spec: [transpose()]. *)
Definition mat_transpose (m : Matrix) : Matrix :=
  mkMatrix (nrows m) (map (mat_col m) (seq 0 (ncols m))).

(** Modelled from the spec: matrix multiply, [a * b]. *)
Definition mat_mul (a b : Matrix) : res Matrix :=
  if Nat.eqb (ncols a) (nrows b)
  then Ok (mkMatrix (ncols b)
             (map (fun r => map (fun j => dot r (mat_col b j)) (seq 0 (ncols b)))
                  (cells a)))
  else Raise (ValueError "matrices are not aligned").

(** Modelled from the spec: matrix add, [a + b]. *)
Definition mat_add (a b : Matrix) : res Matrix :=
  if Nat.eqb (nrows a) (nrows b) && Nat.eqb (ncols a) (ncols b)
  then Ok (mkMatrix (ncols a) (zip_with (zip_with add) (cells a) (cells b)))
  else Raise (ValueError "inconsistent shapes for addition").

(** Modelled from the spec: [a.hstack(b)]. *)
Definition mat_hstack (a b : Matrix) : res Matrix :=
  if Nat.eqb (nrows a) (nrows b)
  then Ok (mkMatrix (ncols a + ncols b) (zip_with app (cells a) (cells b)))
  else Raise (ValueError "inconsistent shapes for hstack").

(** Modelled from the spec: [a.vstack(b)]. *)
Definition mat_vstack (a b : Matrix) : res Matrix :=
  if Nat.eqb (ncols a) (ncols b)
  then Ok (mkMatrix (ncols a) (cells a ++ cells b))
  else Raise (ValueError "inconsistent shapes for vstack").

(** Modelled from the spec: [padd_matrix(mat, value)] appends a constant
    column: it stacks a one-column matrix filled with [value] to the right. *)
Definition padd_matrix (m : Matrix) (value : R) : res Matrix :=
  mat_hstack m (mkMatrix 1 (replicate (nrows m) [value])).

(** Modelled from the spec: [m.sum(axis)]; axis 1 sums each row, axis 0
    each column. The sum of a single cell is that cell. *)
Definition sum_list (r : list R) : R :=
  match r with
  | [] => zero
  | x :: r' => foldl add x r'
  end.

Definition mat_sum (m : Matrix) (axis : nat) : list R :=
  match axis with
  | 0 => map (fun j => sum_list (mat_col m j)) (seq 0 (ncols m))
  | _ => map sum_list (cells m)
  end.

(** Descending insertion: [p] goes in front of the first entry whose key is
    not above its own. *)
Fixpoint insert_desc (p : nat * R) (l : list (nat * R)) : list (nat * R) :=
  match l with
  | [] => [p]
  | q :: l' => if leb q.2 p.2 then p :: q :: l' else q :: insert_desc p l'
  end.

Definition sort_desc (l : list (nat * R)) : list (nat * R) :=
  foldr insert_desc [] l.

(** Modelled from the spec: [m.sorted_permutation(norm_function, axis)], the
    permutation of the indices that sorts them by descending norm; ties keep
    their original order (the lower index first). *)
Definition sorted_permutation (m : Matrix) (norm_function : nat -> list R)
    (axis : nat) : list nat :=
  let norms := norm_function axis in
  map fst (sort_desc (zip (seq 0 (length norms)) norms)).

(** ** External capabilities *)

(** An operation record: a replayable transform over a matrix
    ([op.apply(matrix)]). *)
Record Operation : Type := mkOperation {
  op_apply : Matrix -> res Matrix
}.

(** The transformation classes [Space.apply] accepts; each carries the
    operation its [create_operation()] returns, a feature selection also its
    [selected_columns], a list of column indices. *)
Inductive Transformation : Type :=
  | Weighting (op : Operation)
  | DimensionalityReduction (op : Operation)
  | FeatureSelection (op : Operation) (selected_columns : list nat).

Definition create_operation (t : Transformation) : Operation :=
  match t with
  | Weighting op => op
  | DimensionalityReduction op => op
  | FeatureSelection op _ => op
  end.

(** The similarity capability: [get_sim(vec1, vec2)] and
    [get_sims_to_matrix(vec, matrix)]. *)
Record Similarity : Type := mkSimilarity {
  Similarity_get_sim : Matrix -> Matrix -> res R;
  get_sims_to_matrix : Matrix -> Matrix -> res Matrix
}.

(** The regression-learner capability: [has_intercept()] and
    [train(X, Y)]. *)
Record RegressionLearner : Type := mkLearner {
  has_intercept : bool;
  train : Matrix -> Matrix -> res Matrix
}.

(** The Python values that reach a dynamically checked parameter. *)
Inductive value : Type :=
  | VMatrix (m : Matrix)
  | VTransformation (t : Transformation)
  | VSimilarity (s : Similarity)
  | VLearner (l : RegressionLearner)
  | VOther (type_name : string).

Definition type_name_of (v : value) : string :=
  match v with
  | VMatrix _ => "Matrix"
  | VTransformation _ => "Transformation"
  | VSimilarity _ => "Similarity"
  | VLearner _ => "RegressionLearner"
  | VOther n => n
  end.

(** ** The store *)

Definition loc : Type := positive.

Inductive obj : Type :=
  | OList (l : list string)         (* id2row, id2column *)
  | ODict (d : gmap string nat)     (* row2id, column2id *)
  | OOps (l : list Operation).      (* operations *)

Record world : Type := World {
  heap : gmap loc obj;
  warnings : list string
}.

Definition alloc (o : obj) : St world loc :=
  fun w =>
    let l := fresh (dom (heap w)) in
    (Ok l, World (<[l := o]> (heap w)) (warnings w)).

Definition read_list (l : loc) : St world (list string) :=
  fun w =>
    match heap w !! l with
    | Some (OList xs) => (Ok xs, w)
    | _ => (Raise (TypeError "list expected"), w)
    end.

Definition read_dict (l : loc) : St world (gmap string nat) :=
  fun w =>
    match heap w !! l with
    | Some (ODict d) => (Ok d, w)
    | _ => (Raise (TypeError "dict expected"), w)
    end.

Definition read_ops (l : loc) : St world (list Operation) :=
  fun w =>
    match heap w !! l with
    | Some (OOps ops) => (Ok ops, w)
    | _ => (Raise (TypeError "list expected"), w)
    end.

(** [len(x)] of a list or a dict. *)
Definition py_len (l : loc) : St world nat :=
  fun w =>
    match heap w !! l with
    | Some (OList xs) => (Ok (length xs), w)
    | Some (ODict d) => (Ok (size d), w)
    | Some (OOps ops) => (Ok (length ops), w)
    | None => (Raise (TypeError "object has no len()"), w)
    end.

(** [ops.append(op)]: the list object is changed in place. *)
Definition ops_append (l : loc) (op : Operation) : St world unit :=
  fun w =>
    match heap w !! l with
    | Some (OOps ops) =>
        (Ok tt, World (<[l := OOps (ops ++ [op])]> (heap w)) (warnings w))
    | _ => (Raise (AttributeError "append"), w)
    end.

(** [d[k] = v]: the dict object is changed in place. *)
Definition dict_setitem (l : loc) (k : string) (v : nat) : St world unit :=
  fun w =>
    match heap w !! l with
    | Some (ODict d) =>
        (Ok tt, World (<[l := ODict (<[k := v]> d)]> (heap w)) (warnings w))
    | _ => (Raise (TypeError "object does not support item assignment"), w)
    end.

(** [warnings.warn(msg)]. *)
Definition warn (msg : string) : St world unit :=
  fun w => (Ok tt, World (heap w) (warnings w ++ [msg])).

(** ** The utility functions of [composes.utils.space_utils] *)

Fixpoint list2dict_from (i : nat) (l : list string) (d : gmap string nat)
    : gmap string nat :=
  match l with
  | [] => d
  | word :: l' => list2dict_from (S i) l' (<[word := i]> d)
  end.

(** Modelled from the spec: [list2dict(list_)] builds the index mapping of a
    string list, each string mapped to its position (a repeated string is
    left with its last position, as assignments to a dict do). *)
Definition list2dict (list_ : loc) : St world loc :=
  let* xs := read_list list_ in
  alloc (ODict (list2dict_from 0 xs ∅)).

Definition dict_match_list (d : gmap string nat) (l : list string) : bool :=
  Nat.eqb (size d) (length l)
  && forallb (fun iw => bool_decide (d !! iw.2 = Some iw.1))
             (zip (seq 0 (length l)) l).

(** Modelled from the spec: [assert_dict_match_list(dict_, list_)] fails
    with a MappingMismatch error if the index mapping is not the exact
    inverse of the string list. *)
Definition assert_dict_match_list (dict_ list_ : loc) : St world unit :=
  let* d := read_dict dict_ in
  let* xs := read_list list_ in
  if dict_match_list d xs then ret tt else raise MappingMismatch.

(** Modelled from the spec: [assert_shape_consistent(matrix_, id2row,
    id2column, row2id, column2id)] fails with a ShapeMismatch error if the
    row or column count of the matrix disagrees with the mapping sizes. *)
Definition assert_shape_consistent (matrix_ : Matrix)
    (id2row id2column row2id column2id : loc) : St world unit :=
  let* n_id2row := py_len id2row in
  let* n_row2id := py_len row2id in
  let* n_id2column := py_len id2column in
  let* n_column2id := py_len column2id in
  if Nat.eqb (nrows matrix_) n_id2row && Nat.eqb (nrows matrix_) n_row2id
     && Nat.eqb (ncols matrix_) n_id2column
     && Nat.eqb (ncols matrix_) n_column2id
  then ret tt else raise ShapeMismatch.

Fixpoint add_items_loop (dict_ : loc) (no_els : nat) (i : nat)
    (list_ : list string) : St world unit :=
  match list_ with
  | [] => ret tt
  | el :: rest =>
      let* d := read_dict dict_ in
      match d !! el with
      | Some _ => raise DuplicateKey
      | None =>
          let* _ := dict_setitem dict_ el (no_els + i) in
          add_items_loop dict_ no_els (S i) rest
      end
  end.

(** Modelled from the spec: [add_items_to_dict(dict_, list_)] merges the
    strings of [list_] into [dict_] at the next free indices and raises a
    DuplicateKey error when a string is already a key. It returns the dict
    it was given. *)
Definition add_items_to_dict (dict_ list_ : loc) : St world loc :=
  let* d := read_dict dict_ in
  let* xs := read_list list_ in
  let* _ := add_items_loop dict_ (size d) 0 xs in
  ret dict_.

(** The object itself when it is an instance of the class, as
    [isinstance(obj, cls)] decides. *)
Definition as_Matrix (v : value) : option Matrix :=
  match v with VMatrix m => Some m | _ => None end.
Definition as_Transformation (v : value) : option Transformation :=
  match v with VTransformation t => Some t | _ => None end.
Definition as_Similarity (v : value) : option Similarity :=
  match v with VSimilarity s => Some s | _ => None end.
Definition as_RegressionLearner (v : value) : option RegressionLearner :=
  match v with VLearner l => Some l | _ => None end.

(** Modelled from the spec: [assert_is_instance(obj, types)] fails with a
    TypeMismatch error when the object is of none of the types; past it the
    object is used at its class. *)
Definition assert_is_instance {S T : Type} (as_T : value -> option T)
    (object_ : value) : St S T :=
  match as_T object_ with
  | Some x => ret x
  | None => raise TypeMismatch
  end.

(** ** [class Space] *)

(** A Space object: the matrix and references to its five containers. *)
Record Space : Type := mkSpace {
  _cooccurrence_matrix : Matrix;
  _row2id : loc;
  _id2row : loc;
  _column2id : loc;
  _id2column : loc;
  _operations : loc
}.

(** The read-only properties of the class. *)
Definition cooccurrence_matrix (self : Space) : Matrix := _cooccurrence_matrix self.
Definition row2id (self : Space) : loc := _row2id self.
Definition id2row (self : Space) : loc := _id2row self.
Definition column2id (self : Space) : loc := _column2id self.
Definition id2column (self : Space) : loc := _id2column self.
Definition operations (self : Space) : loc := _operations self.

(** [Space.__init__(matrix_, id2row, id2column, row2id=None, column2id=None,
    **kwargs)]; the only keyword read from [kwargs] is ["operations"]. *)
Definition Space_init (matrix_ : Matrix) (id2row id2column : loc)
    (row2id column2id : option loc) (kwargs_operations : option loc)
    : St world Space :=
  let* row2id :=
    match row2id with
    | None => list2dict id2row
    | Some d => let* _ := assert_dict_match_list d id2row in ret d
    end in
  let* column2id :=
    match column2id with
    | None => list2dict id2column
    | Some d => let* _ := assert_dict_match_list d id2column in ret d
    end in
  let* _ := assert_shape_consistent matrix_ id2row id2column row2id column2id in
  let* operations :=
    match kwargs_operations with
    | Some ops => ret ops
    | None => alloc (OOps [])
    end in
  ret (mkSpace matrix_ row2id id2row column2id id2column operations).

(** [l[index]] where [l] is a Python list and [index] a list object: a list
    is subscripted by integers and slices only. *)
Definition list_getitem_by_list (l : loc) (index : list nat) : St world loc :=
  let* _ := read_list l in
  raise (TypeError "list indices must be integers, not list").

(** [Space.apply(transformation)] *)
Definition apply (self : Space) (transformation : value) : St world Space :=
  let* t := assert_is_instance as_Transformation transformation in
  let op := create_operation t in
  let* new_matrix := lift (op_apply op (cooccurrence_matrix self)) in
  let* ops := read_ops (operations self) in
  let* new_operations := alloc (OOps ops) in
  let* _ := ops_append new_operations op in
  let* rows := read_list (id2row self) in
  let* id2row := alloc (OList rows) in
  let* rd := read_dict (row2id self) in
  let* row2id := alloc (ODict rd) in
  let* '(id2column, column2id) :=
    match t with
    | DimensionalityReduction _ =>
        let* id2column := alloc (OList []) in
        let* column2id := alloc (ODict ∅) in
        ret (id2column, column2id)
    | FeatureSelection _ selected_columns =>
        let* id2column :=
          list_getitem_by_list (id2column self) selected_columns in
        let* column2id := list2dict id2column in
        ret (id2column, column2id)
    | Weighting _ =>
        let* cols := read_list (id2column self) in
        let* id2column := alloc (OList cols) in
        let* cd := read_dict (column2id self) in
        let* column2id := alloc (ODict cd) in
        ret (id2column, column2id)
    end in
  Space_init new_matrix id2row id2column (Some row2id) (Some column2id)
             (Some new_operations).

(** [Space.get_row(word)]; [None] is Python's [None]. *)
Definition get_row (self : Space) (word : string) : St world (option Matrix) :=
  let* d := read_dict (row2id self) in
  match d !! word with
  | None => ret None
  | Some i =>
      let* v := lift (mat_getrow (cooccurrence_matrix self) i) in
      ret (Some v)
  end.

Fixpoint get_rows_loop (self : Space) (words : list string)
    (row_ids : list nat) : St world (list nat) :=
  match words with
  | [] => ret row_ids
  | word :: rest =>
      let* d := read_dict (row2id self) in
      match d !! word with
      | None => raise (ValueError ("Word not found in space rows: " +:+ word))
      | Some i => get_rows_loop self rest (row_ids ++ [i])
      end
  end.

(** [Space.get_rows(words)] *)
Definition get_rows (self : Space) (words : list string) : St world Matrix :=
  let* row_ids := get_rows_loop self words [] in
  lift (mat_getrows (cooccurrence_matrix self) row_ids).

(** [Space.get_sim(word1, word2, similarity, space2=None)] *)
Definition get_sim (self : Space) (word1 word2 : string) (similarity : value)
    (space2 : option Space) : St world R :=
  let* sim := assert_is_instance as_Similarity similarity in
  let* v1 := get_row self word1 in
  let* v2 :=
    match space2 with
    | None => get_row self word2
    | Some space2 => get_row space2 word2
    end in
  match v1 with
  | None =>
      let* _ := warn ("Row string " +:+ word1 +:+ " not found, returning 0.0") in
      ret zero
  | Some v1 =>
      match v2 with
      | None =>
          let* _ := warn ("Row string " +:+ word2 +:+ " not found, returning 0.0") in
          ret zero
      | Some v2 => lift (Similarity_get_sim sim v1 v2)
      end
  end.

(** [l[i]] for a list object. *)
Definition list_getitem (l : loc) (i : nat) : St world string :=
  let* xs := read_list l in
  match xs !! i with
  | Some x => ret x
  | None => raise (IndexError "list index out of range")
  end.

(** The loop [for count in range(no_neighbours)] of [get_neighbours]. *)
Fixpoint neighbours_loop (sorted_perm : list nat) (id2row : loc)
    (sims_to_matrix : Matrix) (counts : list nat) (result : list (string * R))
    : St world (list (string * R)) :=
  match counts with
  | [] => ret result
  | count :: rest =>
      match sorted_perm !! count with
      | None => raise (IndexError "list index out of range")
      | Some i =>
          let* target := list_getitem id2row i in
          let* score := lift (mat_getcell sims_to_matrix i 0) in
          neighbours_loop sorted_perm id2row sims_to_matrix rest
                          (result ++ [(target, score)])
      end
  end.

(** [range(n)] for a Python integer [n]: empty when [n] is not positive. *)
Definition range (n : Z) : list nat := seq 0 (Z.to_nat n).

(** [Space.get_neighbours(word, no_neighbours, similarity,
    neighbour_space=None)] *)
Definition get_neighbours (self : Space) (word : string) (no_neighbours : Z)
    (similarity : value) (neighbour_space : option Space)
    : St world (list (string * R)) :=
  let* sim := assert_is_instance as_Similarity similarity in
  let* vector := get_row self word in
  match vector with
  | None => ret []
  | Some vector =>
      let* '(id2row, sims_to_matrix) :=
        match neighbour_space with
        | None =>
            let id2row := id2row self in
            let* sims := lift (get_sims_to_matrix sim vector
                                 (cooccurrence_matrix self)) in
            ret (id2row, sims)
        | Some neighbour_space =>
            let* sims := lift (get_sims_to_matrix sim vector
                                 (cooccurrence_matrix neighbour_space)) in
            ret (id2row neighbour_space, sims)
        end in
      let sorted_perm :=
        sorted_permutation sims_to_matrix (mat_sum sims_to_matrix) 1 in
      let* n := py_len id2row in
      let no_neighbours := Z.min no_neighbours (Z.of_nat n) in
      neighbours_loop sorted_perm id2row sims_to_matrix
                      (range no_neighbours) []
  end.

(** [Space.vstack(space_)] *)
Definition vstack (self space_ : Space) : St world Space :=
  let c1 := (shape (cooccurrence_matrix self)).2 in
  let c2 := (shape (cooccurrence_matrix space_)).2 in
  if negb (Nat.eqb c1 c2)
  then raise (ValueError ("Inconsistent shapes: " +:+ pretty c1 +:+ ", " +:+ pretty c2))
  else
    let* cols1 := read_list (id2column self) in
    let* cols2 := read_list (id2column space_) in
    if negb (bool_decide (cols1 = cols2))
    then raise (ValueError "Identical columns required")
    else
      let* rd := read_dict (row2id self) in
      let* rd_copy := alloc (ODict rd) in
      let* new_row2id := add_items_to_dict rd_copy (id2row space_) in
      let* rows1 := read_list (id2row self) in
      let* rows2 := read_list (id2row space_) in
      let* new_id2row := alloc (OList (rows1 ++ rows2)) in
      let* new_mat := lift (mat_vstack (cooccurrence_matrix self)
                                       (cooccurrence_matrix space_)) in
      let* cols := read_list (id2column self) in
      let* id2column_copy := alloc (OList cols) in
      let* cd := read_dict (column2id self) in
      let* column2id_copy := alloc (ODict cd) in
      let* no_operations := alloc (OOps []) in
      Space_init new_mat new_id2row id2column_copy (Some new_row2id)
                 (Some column2id_copy) (Some no_operations).

(** The attributes a [Space] instance has: those its class body defines and
    those [__init__] assigns. *)
Definition Space_attributes : list string :=
  [ "__init__"; "apply"; "get_sim"; "get_neighbours"; "vstack"; "get_row";
    "get_rows"; "set_cooccurrence_matrix"; "get_cooccurrence_matrix";
    "cooccurrence_matrix"; "get_row2id"; "row2id"; "get_id2row"; "id2row";
    "get_column2id"; "column2id"; "get_id2column"; "id2column";
    "get_operations"; "operations";
    "_cooccurrence_matrix"; "_row2id"; "_id2row"; "_column2id"; "_id2column";
    "_operations" ].

(** [self.name]: the attribute lookup on a [Space] instance. *)
Definition Space_getattr (name : string) : St world unit :=
  if bool_decide (name ∈ Space_attributes) then ret tt
  else raise (AttributeError ("'Space' object has no attribute '" +:+ name +:+ "'")).

(** [Space.set_cooccurrence_matrix(matrix_)]; the object is returned with
    its matrix field assigned. *)
Definition set_cooccurrence_matrix (self : Space) (matrix_ : value)
    : St world Space :=
  let* m := assert_is_instance as_Matrix matrix_ in
  let* _ := Space_getattr "assert_shape_consistent" in
  let* _ := assert_shape_consistent m (row2id self) (id2row self)
                                    (column2id self) (id2column self) in
  ret (mkSpace m (_row2id self) (_id2row self) (_column2id self)
               (_id2column self) (_operations self)).

(** ** [class FullAdditive] *)

(** A model object. [None] in a field is an attribute that has not been
    assigned: reading it raises an AttributeError. *)
Record FullAdditive : Type := mkFullAdditive {
  _regression_learner : option value;
  _has_intercept : bool;
  _mat_a_t : option Matrix;
  _mat_b_t : option Matrix
}.

Definition getattr {A : Type} (name : string) (field : option A)
    : St FullAdditive A :=
  match field with
  | Some x => ret x
  | None =>
      raise (AttributeError
               ("'FullAdditive' object has no attribute '" +:+ name +:+ "'"))
  end.

(** [obj.name] for one of the two methods of a learner, [has_intercept]
    and [train]: the learner when the object is one. *)
Definition learner_method (name : string) (object_ : value)
    : res RegressionLearner :=
  match object_ with
  | VLearner l => Ok l
  | v => Raise (AttributeError
                  ("'" +:+ type_name_of v +:+ "' object has no attribute '"
                   +:+ name +:+ "'"))
  end.

(** Modelled from the spec: [is_array_or_matrix(obj)] recognises the matrix
    types; the matrix is returned when the object is one. *)
Definition is_array_or_matrix (v : value) : option Matrix := as_Matrix v.

(** Modelled from the spec: [to_compatible_matrix_types(a, b)] returns both
    operands in one concrete representation; the representation (dense or
    sparse) is not part of a [Matrix] here, the cells are. *)
Definition to_compatible_matrix_types (a b : Matrix) : Matrix * Matrix := (a, b).

Section Composition.

(** The learner [RidgeRegressionLearner()] builds: the default. *)
Variable RidgeRegressionLearner : RegressionLearner.

(** [FullAdditive.__init__], called with the keyword arguments [kwargs] *)
Definition FullAdditive_init (kwargs : gmap string value) : res FullAdditive :=
  match kwargs !! "A", kwargs !! "B" with
  | Some mat_a, Some mat_b =>
      match is_array_or_matrix mat_a with
      | None => Raise (TypeError ("expected matrix type, received: "
                                  +:+ type_name_of mat_a))
      | Some mat_a =>
          match is_array_or_matrix mat_b with
          | None => Raise (TypeError ("expected matrix type, received: "
                                      +:+ type_name_of mat_b))
          | Some mat_b =>
              let '(mat_a, mat_b) := to_compatible_matrix_types mat_a mat_b in
              Ok (mkFullAdditive None false
                                 (Some (mat_transpose mat_a))
                                 (Some (mat_transpose mat_b)))
          end
      end
  | _, _ =>
      let regression_learner := VLearner RidgeRegressionLearner in
      let regression_learner :=
        match kwargs !! "learner" with
        | Some l => l
        | None => regression_learner
        end in
      let? l := learner_method "has_intercept" regression_learner in
      Ok (mkFullAdditive (Some regression_learner) (has_intercept l) None None)
  end.

End Composition.

(** [FullAdditive._train(arg1_mat, arg2_mat, phrase_mat)]: the state is the
    model object. *)
Definition _train (arg1_mat arg2_mat phrase_mat : Matrix) : St FullAdditive unit :=
  let* self := get_state in
  let* learner := getattr "_regression_learner" (_regression_learner self) in
  let* l := lift (learner_method "has_intercept" learner) in
  let* _ := put_state (mkFullAdditive (_regression_learner self) (has_intercept l)
                                      (_mat_a_t self) (_mat_b_t self)) in
  let* self := get_state in
  let* learner := getattr "_regression_learner" (_regression_learner self) in
  let* l := lift (learner_method "train" learner) in
  let* design := lift (mat_hstack arg1_mat arg2_mat) in
  let* result := lift (train l design phrase_mat) in
  let* _ := put_state (mkFullAdditive (_regression_learner self) (_has_intercept self)
                         (Some (mat_slice_rows result 0 (Some (shape arg1_mat).2)))
                         (_mat_b_t self)) in
  let* self := get_state in
  put_state (mkFullAdditive (_regression_learner self) (_has_intercept self)
               (_mat_a_t self)
               (Some (mat_slice_rows result (shape arg1_mat).2 None))).

(** [FullAdditive._compose(arg1_mat, arg2_mat)] *)
Definition _compose (arg1_mat arg2_mat : Matrix) : St FullAdditive Matrix :=
  let* self := get_state in
  if _has_intercept self
  then
    let* mat_a_t := getattr "_mat_a_t" (_mat_a_t self) in
    let* left := lift (mat_mul arg1_mat mat_a_t) in
    let* padded := lift (padd_matrix arg2_mat one) in
    let* mat_b_t := getattr "_mat_b_t" (_mat_b_t self) in
    let* right := lift (mat_mul padded mat_b_t) in
    lift (mat_add left right)
  else
    let* mat_a_t := getattr "_mat_a_t" (_mat_a_t self) in
    let* left := lift (mat_mul arg1_mat mat_a_t) in
    let* mat_b_t := getattr "_mat_b_t" (_mat_b_t self) in
    let* right := lift (mat_mul arg2_mat mat_b_t) in
    lift (mat_add left right).

(** [FullAdditive.set_regression_learner(regression_learner)] *)
Definition set_regression_learner (regression_learner : value)
    : St FullAdditive unit :=
  let* _ := assert_is_instance as_RegressionLearner regression_learner in
  let* self := get_state in
  put_state (mkFullAdditive (Some regression_learner) (_has_intercept self)
                            (_mat_a_t self) (_mat_b_t self)).

(** [FullAdditive._build_id2column(arg1_space, arg2_space)] *)
Definition _build_id2column (arg1_space arg2_space : Space) : list string := [].

(** ** The invariants of a Space *)

(** The containers a Space refers to, read from the store. *)
Record SpaceData : Type := mkSpaceData {
  sd_id2row : list string;
  sd_row2id : gmap string nat;
  sd_id2column : list string;
  sd_column2id : gmap string nat;
  sd_operations : list Operation
}.

Definition load (w : world) (s : Space) : option SpaceData :=
  match heap w !! _id2row s, heap w !! _row2id s, heap w !! _id2column s,
        heap w !! _column2id s, heap w !! _operations s with
  | Some (OList rows), Some (ODict rd), Some (OList cols), Some (ODict cd),
    Some (OOps ops) => Some (mkSpaceData rows rd cols cd ops)
  | _, _, _, _, _ => None
  end.

(** The data-model invariants: both index mappings are the exact inverses
    of their string lists and the shape of the matrix agrees with them. *)
Definition valid_data (m : Matrix) (d : SpaceData) : bool :=
  dict_match_list (sd_row2id d) (sd_id2row d)
  && dict_match_list (sd_column2id d) (sd_id2column d)
  && Nat.eqb (nrows m) (length (sd_id2row d))
  && Nat.eqb (ncols m) (length (sd_id2column d)).

Definition valid (w : world) (s : Space) : bool :=
  match load w s with
  | Some d => valid_data (cooccurrence_matrix s) d
  | None => false
  end.

(** What [add_items_to_dict] leaves in the dict when no string is a key
    already: each string at the next free index. *)
Fixpoint insert_items (d : gmap string nat) (no_els i : nat)
    (list_ : list string) : gmap string nat :=
  match list_ with
  | [] => d
  | el :: rest => insert_items (<[el := no_els + i]> d) no_els (S i) rest
  end.

(** A column vector of [n] scores. *)
Definition is_column_vector (m : Matrix) (n : nat) : bool :=
  Nat.eqb (ncols m) 1 && Nat.eqb (nrows m) n && mat_wf m.

(** The claim's words for the padding of [_compose]: a column of ones is
    appended, so every row gets a trailing one. *)
Definition append_ones_column (m : Matrix) : Matrix :=
  mkMatrix (ncols m + 1) (map (fun r => r ++ [one]) (cells m)).

(** Descending order of the indexed norms [sorted_permutation] sorts. *)
Definition desc (a b : nat * R) : Prop := leb b.2 a.2 = true.

(** The neighbour the loop of [get_neighbours] appends for an indexed
    score: the target string of the row and the score. *)
Definition neighbour_of (rows : list string) (p : nat * R) : string * R :=
  (rows !!! p.1, p.2).

(** Non-increasing score order of a list of neighbours. *)
Definition scores_descending (result : list (string * R)) : Prop :=
  StronglySorted (fun a b => leb b.2 a.2 = true) result.

(** ** Effects of a computation on the store *)

(** [m] only reads: it returns or raises in the world it started in. *)
Definition read_only {A : Type} (m : St world A) : Prop :=
  forall w, (m w).2 = w.

(** [m] keeps the objects of [h0]: started in a store that holds them, it
    ends, by a return or a raise, in a store that holds them unchanged, and
    it emits no warning; a returned value satisfies [Q]. *)
Definition keeps {A : Type} (h0 : gmap loc obj) (m : St world A)
    (Q : A -> Prop) : Prop :=
  forall w, h0 ⊆ heap w ->
    h0 ⊆ heap (m w).2
    /\ warnings (m w).2 = warnings w
    /\ match (m w).1 with Ok a => Q a | Raise _ => True end.

End Model.

(** ** Integer scalars and sample objects *)

#[export] Instance Z_Scalar : Scalar Z := {|
  zero := 0%Z;
  one := 1%Z;
  add := Z.add;
  mul := Z.mul;
  leb := Z.leb
|}.

Module Sample.

Definition empty_world : world (R := Z) := World ∅ [].

(** [Space(matrix_, id2row, id2column)] on two fresh list objects. *)
Definition new_space (m : Matrix (R := Z)) (rows cols : list string)
    : St world Space :=
  let* id2row := alloc (OList rows) in
  let* id2column := alloc (OList cols) in
  Space_init m id2row id2column None None None.

Definition animals_matrix : Matrix := mkMatrix 2 [[1; 2]; [3; 4]; [5; 6]]%Z.
Definition birds_matrix : Matrix := mkMatrix 2 [[7; 8]; [9; 0]]%Z.

(** Two Spaces over the same features, built one after the other. *)
Definition zoo : res (Space * Space) * world :=
  (let* animals := new_space animals_matrix ["cat"; "dog"; "eel"] ["f1"; "f2"] in
   let* birds := new_space birds_matrix ["owl"; "jay"] ["f1"; "f2"] in
   ret (animals, birds)) empty_world.

Definition zoo_world : world := zoo.2.

Definition animals_space : Space :=
  match zoo.1 with
  | Ok (animals, _) => animals
  | Raise _ => mkSpace animals_matrix 1%positive 1%positive 1%positive 1%positive 1%positive
  end.

Definition birds_space : Space :=
  match zoo.1 with
  | Ok (_, birds) => birds
  | Raise _ => mkSpace birds_matrix 1%positive 1%positive 1%positive 1%positive 1%positive
  end.

Definition features_dict : gmap string nat := list2dict_from 0 ["f1"; "f2"] ∅.

Definition animals_data : SpaceData (R := Z) :=
  mkSpaceData ["cat"; "dog"; "eel"] (list2dict_from 0 ["cat"; "dog"; "eel"] ∅)
              ["f1"; "f2"] features_dict [].

Definition birds_data : SpaceData (R := Z) :=
  mkSpaceData ["owl"; "jay"] (list2dict_from 0 ["owl"; "jay"] ∅)
              ["f1"; "f2"] features_dict [].

(** A weighting that doubles every cell. *)
Definition doubling : Operation (R := Z) :=
  mkOperation (fun m => Ok (mkMatrix (ncols m) (map (map (Z.mul 2)) (cells m)))).

(** A feature selection that keeps the first column. *)
Definition first_column : Operation (R := Z) :=
  mkOperation (fun m => Ok (mkMatrix 1 (map (take 1) (cells m)))).

(** The dot product as similarity. *)
Definition dot_similarity : Similarity (R := Z) :=
  mkSimilarity
    (fun v1 v2 => Ok (dot (concat (cells v1)) (concat (cells v2))))
    (fun v m => Ok (mkMatrix 1 (map (fun r => [dot (concat (cells v)) r]) (cells m)))).

(** A learner with an intercept whose coefficients are [X^T * Y]. *)
Definition toy_learner : RegressionLearner (R := Z) :=
  mkLearner true (fun X Y => mat_mul (mat_transpose X) Y).

Definition plain_learner : RegressionLearner (R := Z) :=
  mkLearner false (fun X Y => mat_mul (mat_transpose X) Y).

End Sample.

(** Calls on the sample Spaces, with their results and stores. *)
Module Scenario.

Import Sample.

(** The value a call returned, [default] when it raised. *)
Definition returned {S A : Type} (default : A) (r : res A * S) : A :=
  match r.1 with
  | Ok a => a
  | Raise _ => default
  end.


(** The animals with every cell doubled, and doubled again. *)
Definition doubled : res Space * world :=
  apply animals_space (VTransformation (Weighting doubling)) zoo_world.
Definition doubled_space : Space := returned animals_space doubled.
Definition doubled_world : world := doubled.2.

Definition doubled_twice : res Space * world :=
  apply doubled_space (VTransformation (Weighting doubling)) doubled_world.
Definition doubled_twice_space : Space := returned animals_space doubled_twice.
Definition doubled_twice_world : world := doubled_twice.2.

(** The birds stacked under the animals. *)
Definition stacked : res Space * world :=
  vstack animals_space birds_space zoo_world.
Definition stacked_space : Space := returned animals_space stacked.
Definition stacked_world : world := stacked.2.


(** Keyword arguments with both matrices and a learner. *)
Definition both_matrices : gmap string (value (R := Z)) :=
  <["A" := VMatrix animals_matrix]>
    (<["B" := VMatrix birds_matrix]> {["learner" := VLearner toy_learner]}).

Definition only_A : gmap string (value (R := Z)) :=
  {["A" := VMatrix animals_matrix]}.

End Scenario.

(** * Properties *)

#[export] Instance Z_ScalarOrder : ScalarOrder Z.
Proof.
  split; cbn; intros.
  - destruct (Z.leb_spec x y); [left | right]; trivial. apply Z.leb_le. lia.
  - apply Z.leb_le. apply Z.leb_le in H, H0. lia.
Qed.

#[export] Instance Z_ScalarLaws : ScalarLaws Z.
Proof. split; cbn; intros; lia. Qed.

Section Properties.

Context {R : Type} {SR : Scalar R}.

Local Abbreviation Matrix := (@Matrix R).
Local Abbreviation Operation := (@Operation R).
Local Abbreviation value := (@value R).
Local Abbreviation world := (@world R).
Local Abbreviation Space := (@Space R).
Local Abbreviation SpaceData := (@SpaceData R).
Local Abbreviation FullAdditive := (@FullAdditive R).
Local Abbreviation RegressionLearner := (@RegressionLearner R).
Local Abbreviation Similarity := (@Similarity R).

(** ** The monad *)

Lemma bind_Ok {S A B : Type} (m : St S A) (k : A -> St S B) s a s' :
  m s = (Ok a, s') -> bind m k s = k a s'.
Proof. unfold bind. intros ->. reflexivity. Qed.

Lemma bind_Raise {S A B : Type} (m : St S A) (k : A -> St S B) s e s' :
  m s = (Raise e, s') -> bind m k s = (Raise e, s').
Proof. unfold bind. intros ->. reflexivity. Qed.

Lemma bind_Raise_fst {S A B : Type} (m : St S A) (k : A -> St S B) s e :
  (m s).1 = Raise e -> (bind m k s).1 = Raise e.
Proof.
  unfold bind. destruct (m s) as [[a|e'] s']; cbn; intros E;
    [discriminate | now injection E as ->].
Qed.

(** ** The additive model *)

Lemma zip_with_app_replicate (l : list (list R)) (v : R) :
  zip_with app l (replicate (length l) [v]) = map (fun r => r ++ [v]) l.
Proof.
  induction l as [|r l IH]; cbn; [reflexivity|]. now rewrite IH.
Qed.

Lemma padd_matrix_appends (m : Matrix) (v : R) :
  padd_matrix m v = Ok (mkMatrix (ncols m + 1) (map (fun r => r ++ [v]) (cells m))).
Proof.
  unfold padd_matrix, mat_hstack, nrows. cbn [cells ncols].
  rewrite length_replicate, Nat.eqb_refl, zip_with_app_replicate.
  reflexivity.
Qed.

Lemma padd_matrix_ones (m : Matrix) :
  padd_matrix m one = Ok (append_ones_column m).
Proof. apply padd_matrix_appends. Qed.

Lemma compose_is_linear_map_no_intercept (learner : option value)
    (At Bt arg1_mat arg2_mat : Matrix) :
  _compose arg1_mat arg2_mat (mkFullAdditive learner false (Some At) (Some Bt))
  = (let? left := mat_mul arg1_mat At in
     let? right := mat_mul arg2_mat Bt in
     mat_add left right,
     mkFullAdditive learner false (Some At) (Some Bt)).
Proof.
  unfold _compose, bind, get_state, getattr, ret, lift. cbn.
  destruct (mat_mul arg1_mat At); cbn; [|reflexivity].
  destruct (mat_mul arg2_mat Bt); reflexivity.
Qed.

Lemma compose_is_linear_map_intercept (learner : option value)
    (At Bt arg1_mat arg2_mat : Matrix) :
  _compose arg1_mat arg2_mat (mkFullAdditive learner true (Some At) (Some Bt))
  = (let? left := mat_mul arg1_mat At in
     let? right := mat_mul (append_ones_column arg2_mat) Bt in
     mat_add left right,
     mkFullAdditive learner true (Some At) (Some Bt)).
Proof.
  unfold _compose, bind, get_state, getattr, ret, lift. cbn.
  destruct (mat_mul arg1_mat At); cbn; [|reflexivity].
  rewrite padd_matrix_ones.
  destruct (mat_mul (append_ones_column arg2_mat) Bt); reflexivity.
Qed.

(** C1. [_compose] returns [arg1_mat * A^T + arg2_mat * B^T] without an
    intercept and [arg1_mat * A^T + padded(arg2_mat) * B^T] with one, where
    the padding appends a column of ones; [A^T] and [B^T] are the stored
    [_mat_a_t] and [_mat_b_t]. A failing matrix product or sum fails the
    call in the same way, and the model is left as it was. *)
Theorem compose_is_linear_map (learner : option value) (At Bt arg1_mat arg2_mat : Matrix) :
  _compose arg1_mat arg2_mat (mkFullAdditive learner false (Some At) (Some Bt))
  = (let? left := mat_mul arg1_mat At in
     let? right := mat_mul arg2_mat Bt in
     mat_add left right,
     mkFullAdditive learner false (Some At) (Some Bt))
  /\
  _compose arg1_mat arg2_mat (mkFullAdditive learner true (Some At) (Some Bt))
  = (let? left := mat_mul arg1_mat At in
     let? right := mat_mul (append_ones_column arg2_mat) Bt in
     mat_add left right,
     mkFullAdditive learner true (Some At) (Some Bt)).
Proof.
  split.
  - apply compose_is_linear_map_no_intercept.
  - apply compose_is_linear_map_intercept.
Qed.

(** C9. [_train] on a model that owns a learner: [has_intercept] is read
    again from the learner, the learner is trained on the horizontal stack
    of the two argument matrices against the phrase matrix, and the
    coefficient matrix is split at the row index [arg1_mat.shape[1]]: the
    rows before it become [A^T], the rows from it on become [B^T]. *)
Theorem train_splits_coefficients (self : FullAdditive) (l : RegressionLearner)
    (arg1_mat arg2_mat phrase_mat design result : Matrix) :
  _regression_learner self = Some (VLearner l) ->
  mat_hstack arg1_mat arg2_mat = Ok design ->
  train l design phrase_mat = Ok result ->
  _train arg1_mat arg2_mat phrase_mat self
  = (Ok tt,
     mkFullAdditive (Some (VLearner l)) (has_intercept l)
       (Some (mkMatrix (ncols result) (take (ncols arg1_mat) (cells result))))
       (Some (mkMatrix (ncols result) (drop (ncols arg1_mat) (cells result))))).
Proof.
  intros Hl Hstack Htrain.
  unfold _train, bind, get_state, put_state, getattr, ret, lift.
  cbn. rewrite Hl. cbn. rewrite Hstack, Htrain. cbn.
  rewrite Nat.sub_0_r. reflexivity.
Qed.

(** The two blocks are the whole coefficient matrix, in order. *)
Lemma train_blocks_cover (arg1_mat result : Matrix) :
  take (ncols arg1_mat) (cells result) ++ drop (ncols arg1_mat) (cells result)
  = cells result.
Proof. apply take_drop. Qed.

(** A model without a learner (the direct-parameter path) cannot be
    trained. *)
Lemma train_without_learner (self : FullAdditive) (arg1_mat arg2_mat phrase_mat : Matrix) :
  _regression_learner self = None ->
  exists msg, _train arg1_mat arg2_mat phrase_mat self = (Raise (AttributeError msg), self).
Proof.
  intros Hl. eexists.
  unfold _train, bind, get_state, getattr, raise. cbn.
  rewrite Hl. cbn. reflexivity.
Qed.

(** C10. The constructor takes the direct-parameter path only when both
    ["A"] and ["B"] are supplied. With exactly one of them it does not
    raise: whatever was supplied is ignored, the model holds the learner
    (the default one unless a learner is supplied) and [has_intercept] is
    the learner's. *)
Theorem init_needs_both_matrices (ridge : RegressionLearner)
    (kwargs : gmap string value) :
  (forall self, FullAdditive_init ridge kwargs = Ok self ->
     _regression_learner self = None ->
     is_Some (kwargs !! "A") /\ is_Some (kwargs !! "B"))
  /\
  (xorb (bool_decide (is_Some (kwargs !! "A")))
        (bool_decide (is_Some (kwargs !! "B"))) = true ->
   (kwargs !! "learner" = None ->
      FullAdditive_init ridge kwargs
      = Ok (mkFullAdditive (Some (VLearner ridge)) (has_intercept ridge) None None))
   /\
   (forall l, kwargs !! "learner" = Some (VLearner l) ->
      FullAdditive_init ridge kwargs
      = Ok (mkFullAdditive (Some (VLearner l)) (has_intercept l) None None))).
Proof.
  split.
  - intros self Hinit Hnone. unfold FullAdditive_init in Hinit.
    destruct (kwargs !! "A") as [a|] eqn:HA, (kwargs !! "B") as [b|] eqn:HB;
      try (split; eauto; fail).
    all: destruct (kwargs !! "learner") as [[]|]; cbn in Hinit;
      try discriminate; injection Hinit as <-; discriminate.
  - intros Hxor. unfold FullAdditive_init.
    destruct (kwargs !! "A") as [a|] eqn:HA, (kwargs !! "B") as [b|] eqn:HB;
      cbn in Hxor; try discriminate.
    all: split; [intros ->; reflexivity | intros l ->; reflexivity].
Qed.

(** With both matrices the transposes are stored and there is no
    intercept: the model composes with the matrices it was given. *)
Lemma init_direct_path (ridge : RegressionLearner) (kwargs : gmap string value)
    (mat_a mat_b : Matrix) :
  kwargs !! "A" = Some (VMatrix mat_a) ->
  kwargs !! "B" = Some (VMatrix mat_b) ->
  FullAdditive_init ridge kwargs
  = Ok (mkFullAdditive None false (Some (mat_transpose mat_a))
                       (Some (mat_transpose mat_b))).
Proof. intros HA HB. unfold FullAdditive_init. rewrite HA, HB. reflexivity. Qed.

Lemma compose_direct_parameters (ridge : RegressionLearner)
    (kwargs : gmap string value) (mat_a mat_b arg1_mat arg2_mat : Matrix)
    (self : FullAdditive) :
  kwargs !! "A" = Some (VMatrix mat_a) ->
  kwargs !! "B" = Some (VMatrix mat_b) ->
  FullAdditive_init ridge kwargs = Ok self ->
  _compose arg1_mat arg2_mat self
  = (let? left := mat_mul arg1_mat (mat_transpose mat_a) in
     let? right := mat_mul arg2_mat (mat_transpose mat_b) in
     mat_add left right,
     self).
Proof.
  intros HA HB Hinit. rewrite (init_direct_path _ _ _ _ HA HB) in Hinit.
  injection Hinit as <-. apply compose_is_linear_map_no_intercept.
Qed.

(** ** The store *)

(** The validation function is imported by the module; the class has no
    attribute of its name. *)
Lemma Space_has_no_assert_shape_consistent :
  "assert_shape_consistent" ∉ Space_attributes.
Proof.
  unfold Space_attributes. rewrite !not_elem_of_cons.
  repeat split; try discriminate. apply not_elem_of_nil.
Qed.

(** C8, as the code has it. [set_cooccurrence_matrix] looks the validation
    up as an attribute of the instance, which has none of that name: the
    call raises an AttributeError for every matrix, and installs nothing. *)
Theorem set_cooccurrence_matrix_raises (self : Space) (m : Matrix) (w : world) :
  set_cooccurrence_matrix self (VMatrix m) w
  = (Raise (AttributeError "'Space' object has no attribute 'assert_shape_consistent'"), w).
Proof.
  unfold set_cooccurrence_matrix. cbn [as_Matrix assert_is_instance].
  unfold bind at 1. cbn [ret].
  apply bind_Raise. unfold Space_getattr.
  rewrite bool_decide_eq_false_2 by apply Space_has_no_assert_shape_consistent.
  reflexivity.
Qed.

Lemma read_list_Ok (w : world) l xs :
  heap w !! l = Some (OList xs) -> read_list l w = (Ok xs, w).
Proof. unfold read_list. intros ->. reflexivity. Qed.

Lemma read_dict_Ok (w : world) l d :
  heap w !! l = Some (ODict d) -> read_dict l w = (Ok d, w).
Proof. unfold read_dict. intros ->. reflexivity. Qed.

Lemma read_ops_Ok (w : world) l ops :
  heap w !! l = Some (OOps ops) -> read_ops l w = (Ok ops, w).
Proof. unfold read_ops. intros ->. reflexivity. Qed.

Lemma py_len_list (w : world) l xs :
  heap w !! l = Some (OList xs) -> py_len l w = (Ok (length xs), w).
Proof. unfold py_len. intros ->. reflexivity. Qed.

Lemma py_len_dict (w : world) l d :
  heap w !! l = Some (ODict d) -> py_len l w = (Ok (size d), w).
Proof. unfold py_len. intros ->. reflexivity. Qed.

Lemma alloc_fresh (o : obj) (w : world) :
  exists l, heap w !! l = None
            /\ alloc o w = (Ok l, World (<[l := o]> (heap w)) (warnings w)).
Proof.
  exists (fresh (dom (heap w))). split; [|reflexivity].
  apply not_elem_of_dom. apply is_fresh.
Qed.

Lemma load_inv (w : world) (s : Space) (d : SpaceData) :
  load w s = Some d ->
  heap w !! _id2row s = Some (OList (sd_id2row d))
  /\ heap w !! _row2id s = Some (ODict (sd_row2id d))
  /\ heap w !! _id2column s = Some (OList (sd_id2column d))
  /\ heap w !! _column2id s = Some (ODict (sd_column2id d))
  /\ heap w !! _operations s = Some (OOps (sd_operations d)).
Proof.
  unfold load. intros Hload.
  destruct (heap w !! _id2row s) as [[]|]; try discriminate.
  destruct (heap w !! _row2id s) as [[]|]; try discriminate.
  destruct (heap w !! _id2column s) as [[]|]; try discriminate.
  destruct (heap w !! _column2id s) as [[]|]; try discriminate.
  destruct (heap w !! _operations s) as [[]|]; try discriminate.
  injection Hload as <-. cbn. auto.
Qed.

Lemma load_intro (w : world) (s : Space) rows rd cols cd ops :
  heap w !! _id2row s = Some (OList rows) ->
  heap w !! _row2id s = Some (ODict rd) ->
  heap w !! _id2column s = Some (OList cols) ->
  heap w !! _column2id s = Some (ODict cd) ->
  heap w !! _operations s = Some (OOps ops) ->
  load w s = Some (mkSpaceData rows rd cols cd ops).
Proof. unfold load. intros -> -> -> -> ->. reflexivity. Qed.

(** ** Index mappings *)

Lemma lookup_zip_seq {A : Type} (l : list A) (j i : nat) :
  zip (seq j (length l)) l !! i = (fun x => (j + i, x)) <$> l !! i.
Proof.
  revert j i. induction l as [|x l IH]; intros j i; [reflexivity|].
  destruct i as [|i]; cbn.
  - now rewrite Nat.add_0_r.
  - rewrite IH. now rewrite Nat.add_succ_r.
Qed.

Lemma dict_match_list_spec (d : gmap string nat) (l : list string) :
  dict_match_list d l = true
  <-> size d = length l /\ forall i x, l !! i = Some x -> d !! x = Some i.
Proof.
  unfold dict_match_list. rewrite andb_true_iff, Nat.eqb_eq, forallb_forall.
  split; intros [Hsize Hall]; split; trivial.
  - intros i x Hix.
    specialize (Hall (i, x)). cbn in Hall.
    apply bool_decide_eq_true in Hall; trivial.
    apply list_elem_of_In, list_elem_of_lookup. exists i.
    rewrite lookup_zip_seq, Hix. reflexivity.
  - intros [i x] Hin. cbn. apply bool_decide_eq_true.
    apply list_elem_of_In, list_elem_of_lookup in Hin as [k Hk].
    rewrite lookup_zip_seq in Hk.
    destruct (l !! k) as [y|] eqn:Hy; cbn in Hk; [|discriminate].
    injection Hk as <- <-. now apply Hall.
Qed.

Lemma dict_match_list_NoDup d l : dict_match_list d l = true -> NoDup l.
Proof.
  intros [_ Hall]%dict_match_list_spec.
  apply NoDup_alt. intros i j x Hi Hj.
  apply Hall in Hi, Hj. congruence.
Qed.

(** The mapping has no other keys than the strings of the list. *)
Lemma dict_match_list_inv d l x i :
  dict_match_list d l = true -> d !! x = Some i -> l !! i = Some x.
Proof.
  intros Hm Hx. pose proof (dict_match_list_NoDup _ _ Hm) as Hnd.
  apply dict_match_list_spec in Hm as [Hsize Hall].
  assert (Hsub : (list_to_set l : gset string) ⊆ dom d).
  { intros y [k Hk]%elem_of_list_to_set%list_elem_of_lookup.
    apply elem_of_dom. rewrite (Hall _ _ Hk). eauto. }
  assert (Heq : (list_to_set l : gset string) = dom d).
  { apply set_subseteq_size_eq; [exact Hsub|].
    rewrite size_dom, size_list_to_set by exact Hnd. lia. }
  assert (Hin : x ∈ (list_to_set l : gset string)).
  { rewrite Heq. apply elem_of_dom. eauto. }
  apply elem_of_list_to_set, list_elem_of_lookup in Hin as [k Hk].
  pose proof (Hall _ _ Hk) as Hk'. congruence.
Qed.

Lemma valid_inv (w : world) (s : Space) :
  valid w s = true ->
  exists d, load w s = Some d
    /\ dict_match_list (sd_row2id d) (sd_id2row d) = true
    /\ dict_match_list (sd_column2id d) (sd_id2column d) = true
    /\ nrows (cooccurrence_matrix s) = length (sd_id2row d)
    /\ ncols (cooccurrence_matrix s) = length (sd_id2column d).
Proof.
  unfold valid, valid_data. destruct (load w s) as [d|]; [|discriminate].
  rewrite !andb_true_iff, !Nat.eqb_eq. intros [[[? ?] ?] ?]. eauto 10.
Qed.

(** In a valid Space a known word has a row in the matrix. *)
Lemma valid_row_exists (w : world) (s : Space) (d : SpaceData) x i :
  load w s = Some d -> valid w s = true -> sd_row2id d !! x = Some i ->
  sd_id2row d !! i = Some x
  /\ exists r, cells (cooccurrence_matrix s) !! i = Some r.
Proof.
  intros Hload (d' & Hload' & Hrows & _ & Hn & _)%valid_inv Hx.
  rewrite Hload in Hload'. injection Hload' as <-.
  pose proof (dict_match_list_inv _ _ _ _ Hrows Hx) as Hi.
  split; [exact Hi|].
  apply lookup_lt_is_Some. unfold nrows in Hn. rewrite Hn.
  eapply lookup_lt_Some, Hi.
Qed.

(** ** Row lookups *)

Lemma get_row_absent (w : world) (self : Space) (d : SpaceData) word :
  load w self = Some d -> sd_row2id d !! word = None ->
  get_row self word w = (Ok None, w).
Proof.
  intros (_ & Hrd & _)%load_inv Hw. unfold get_row, row2id.
  rewrite (bind_Ok _ _ _ _ _ (read_dict_Ok _ _ _ Hrd)), Hw. reflexivity.
Qed.

Lemma get_row_present (w : world) (self : Space) (d : SpaceData) word i r :
  load w self = Some d -> sd_row2id d !! word = Some i ->
  cells (cooccurrence_matrix self) !! i = Some r ->
  get_row self word w
  = (Ok (Some (mkMatrix (ncols (cooccurrence_matrix self)) [r])), w).
Proof.
  intros (_ & Hrd & _)%load_inv Hw Hr. unfold get_row, row2id.
  rewrite (bind_Ok _ _ _ _ _ (read_dict_Ok _ _ _ Hrd)), Hw.
  unfold bind, lift, mat_getrow. rewrite Hr. reflexivity.
Qed.

Lemma get_rows_loop_found (w : world) (self : Space) (d : SpaceData) words :
  load w self = Some d ->
  Forall (fun x => is_Some (sd_row2id d !! x)) words ->
  forall row_ids, exists ids,
    get_rows_loop self words row_ids w = (Ok (row_ids ++ ids), w)
    /\ Forall2 (fun x i => sd_row2id d !! x = Some i) words ids.
Proof.
  intros (_ & Hrd & _)%load_inv Hall.
  induction Hall as [|x words [i Hi] _ IH]; intros row_ids.
  - exists []. rewrite app_nil_r. split; [reflexivity | constructor].
  - destruct (IH (row_ids ++ [i])) as (ids & Hloop & Hids).
    exists (i :: ids). split; [|constructor; trivial].
    cbn [get_rows_loop]. unfold row2id.
    rewrite (bind_Ok _ _ _ _ _ (read_dict_Ok _ _ _ Hrd)), Hi, Hloop.
    now rewrite <- app_assoc.
Qed.

Lemma get_rows_loop_missing (w : world) (self : Space) (d : SpaceData)
    found word rest :
  load w self = Some d ->
  Forall (fun x => is_Some (sd_row2id d !! x)) found ->
  sd_row2id d !! word = None ->
  forall row_ids,
    get_rows_loop self (found ++ word :: rest) row_ids w
    = (Raise (ValueError ("Word not found in space rows: " +:+ word)), w).
Proof.
  intros (_ & Hrd & _)%load_inv Hall Hword.
  induction Hall as [|x found [i Hi] _ IH]; intros row_ids; cbn [app get_rows_loop];
    unfold row2id; rewrite (bind_Ok _ _ _ _ _ (read_dict_Ok _ _ _ Hrd)).
  - rewrite Hword. reflexivity.
  - rewrite Hi. apply IH.
Qed.

Lemma lookup_all_Ok {A : Type} (l : list A) (ids : list nat) :
  Forall (fun i => is_Some (l !! i)) ids ->
  exists xs, lookup_all l ids = Ok xs
             /\ Forall2 (fun i x => l !! i = Some x) ids xs.
Proof.
  induction 1 as [|i ids [x Hx] _ (xs & Hxs & Hall)].
  - exists []. split; [reflexivity | constructor].
  - exists (x :: xs). cbn. rewrite Hx, Hxs. split; [reflexivity|].
    constructor; trivial.
Qed.

(** C6. [get_row] returns [None] for a word that is not a key of [row2id];
    [get_rows] raises the KeyNotFound error (the ValueError whose message
    names the word) for the first missing word of the request; when no word is missing it returns the matrix whose rows
    are the rows of the requested words, in the order of the request. *)
Theorem get_row_soft_get_rows_strict (w : world) (self : Space) (d : SpaceData) :
  load w self = Some d ->
  (forall word, sd_row2id d !! word = None ->
     get_row self word w = (Ok None, w))
  /\
  (forall found word rest,
     Forall (fun x => is_Some (sd_row2id d !! x)) found ->
     sd_row2id d !! word = None ->
     get_rows self (found ++ word :: rest) w = (Raise (KeyNotFound word), w))
  /\
  (valid w self = true ->
   forall words, Forall (fun x => is_Some (sd_row2id d !! x)) words ->
     exists rows,
       get_rows self words w
       = (Ok (mkMatrix (ncols (cooccurrence_matrix self)) rows), w)
       /\ Forall2 (fun word r =>
                     get_row self word w
                     = (Ok (Some (mkMatrix (ncols (cooccurrence_matrix self)) [r])), w))
                  words rows).
Proof.
  intros Hload. split; [|split].
  - intros word. now apply get_row_absent.
  - intros found word rest Hfound Hword. unfold get_rows.
    erewrite bind_Raise; [reflexivity|].
    eapply get_rows_loop_missing; eauto.
  - intros Hvalid words Hall.
    destruct (get_rows_loop_found w self d words Hload Hall []) as (ids & Hloop & Hids).
    assert (Hin : Forall (fun i => is_Some (cells (cooccurrence_matrix self) !! i)) ids).
    { clear Hloop. induction Hids as [|x i words ids Hx _ IH]; constructor.
      - destruct (valid_row_exists _ _ _ _ _ Hload Hvalid Hx) as [_ [r Hr]]. eauto.
      - apply IH. now inversion Hall. }
    destruct (lookup_all_Ok _ _ Hin) as (rows & Hrows & Hget).
    exists rows. split.
    + unfold get_rows. rewrite (bind_Ok _ _ _ _ _ Hloop). cbn.
      unfold lift, mat_getrows. rewrite Hrows. reflexivity.
    + clear Hloop Hrows Hin Hall. revert rows Hget.
      induction Hids as [|x i words ids Hx _ IH]; intros rows Hget;
        inversion Hget; subst; constructor.
      * eapply get_row_present; eauto.
      * now apply IH.
Qed.

Lemma get_row_cases (w : world) (s : Space) (d : SpaceData) word :
  load w s = Some d -> valid w s = true ->
  (sd_row2id d !! word = None /\ get_row s word w = (Ok None, w))
  \/ (exists i r, sd_row2id d !! word = Some i
        /\ sd_id2row d !! i = Some word
        /\ cells (cooccurrence_matrix s) !! i = Some r
        /\ get_row s word w
           = (Ok (Some (mkMatrix (ncols (cooccurrence_matrix s)) [r])), w)).
Proof.
  intros Hload Hvalid. destruct (sd_row2id d !! word) as [i|] eqn:Hw.
  - right. destruct (valid_row_exists _ _ _ _ _ Hload Hvalid Hw) as [Hi [r Hr]].
    exists i, r. repeat split; trivial. eapply get_row_present; eauto.
  - left. split; trivial. eapply get_row_absent; eauto.
Qed.

(** ** Similarity queries *)

(** C5. [get_sim] with a similarity capability on valid Spaces never raises
    on a missing word. If [word1] is not a row of this Space, or [word2] is
    not a row of the lookup Space ([space2] when given, this Space
    otherwise), one warning is emitted and the result is [0.0]; otherwise
    the result is the capability's score on the two row vectors. *)
Theorem get_sim_soft_miss (w : world) (self : Space) (space2 : option Space)
    (sim : Similarity) (d d2 : SpaceData) (word1 word2 : string) :
  load w self = Some d -> valid w self = true ->
  load w (default self space2) = Some d2 ->
  valid w (default self space2) = true ->
  (sd_row2id d !! word1 = None ->
     get_sim self word1 word2 (VSimilarity sim) space2 w
     = (Ok zero,
        World (heap w)
              (warnings w ++ ["Row string " +:+ word1 +:+ " not found, returning 0.0"])))
  /\
  (is_Some (sd_row2id d !! word1) -> sd_row2id d2 !! word2 = None ->
     get_sim self word1 word2 (VSimilarity sim) space2 w
     = (Ok zero,
        World (heap w)
              (warnings w ++ ["Row string " +:+ word2 +:+ " not found, returning 0.0"])))
  /\
  (is_Some (sd_row2id d !! word1) -> is_Some (sd_row2id d2 !! word2) ->
     exists v1 v2,
       get_row self word1 w = (Ok (Some v1), w)
       /\ get_row (default self space2) word2 w = (Ok (Some v2), w)
       /\ get_sim self word1 word2 (VSimilarity sim) space2 w
          = (Similarity_get_sim sim v1 v2, w)).
Proof.
  intros Hload Hvalid Hload2 Hvalid2.
  assert (Hstep : forall o1 o2,
            get_row self word1 w = (Ok o1, w) ->
            get_row (default self space2) word2 w = (Ok o2, w) ->
            get_sim self word1 word2 (VSimilarity sim) space2 w
            = match o1, o2 with
              | None, _ =>
                  (Ok zero,
                   World (heap w)
                     (warnings w ++ ["Row string " +:+ word1 +:+ " not found, returning 0.0"]))
              | Some _, None =>
                  (Ok zero,
                   World (heap w)
                     (warnings w ++ ["Row string " +:+ word2 +:+ " not found, returning 0.0"]))
              | Some v1, Some v2 => (Similarity_get_sim sim v1 v2, w)
              end).
  { intros o1 o2 H1 H2. unfold get_sim. cbn [as_Similarity assert_is_instance].
    unfold bind at 1. cbn [ret].
    rewrite (bind_Ok _ _ _ _ _ H1).
    assert (H2' : match space2 with
                  | Some space3 => get_row space3 word2
                  | None => get_row self word2
                  end w = (Ok o2, w)) by (destruct space2; exact H2).
    rewrite (bind_Ok _ _ _ _ _ H2').
    destruct o1, o2; reflexivity. }
  destruct (get_row_cases w self d word1 Hload Hvalid)
    as [[Ha1 Hg1] | (i1 & r1 & Hi1 & _ & _ & Hg1)];
  destruct (get_row_cases w _ d2 word2 Hload2 Hvalid2)
    as [[Ha2 Hg2] | (i2 & r2 & Hi2 & _ & _ & Hg2)];
  pose proof (Hstep _ _ Hg1 Hg2) as Hsim; cbn in Hsim;
  (split; [|split]).
  all: try (intros; exact Hsim).
  all: try (intros [? ?]; congruence).
  all: try (intros; congruence).
  all: try (intros _ [? ?]; congruence).
  intros _ _. eauto.
Qed.

(** ** Transformations *)

Lemma ops_append_Ok (w : world) l ops op :
  heap w !! l = Some (OOps ops) ->
  ops_append l op w
  = (Ok tt, World (<[l := OOps (ops ++ [op])]> (heap w)) (warnings w)).
Proof. unfold ops_append. intros ->. reflexivity. Qed.

Lemma assert_dict_match_list_Ok (w : world) ld ll d xs :
  heap w !! ld = Some (ODict d) -> heap w !! ll = Some (OList xs) ->
  dict_match_list d xs = true ->
  assert_dict_match_list ld ll w = (Ok tt, w).
Proof.
  intros Hd Hl Hm. unfold assert_dict_match_list.
  rewrite (bind_Ok _ _ _ _ _ (read_dict_Ok _ _ _ Hd)).
  rewrite (bind_Ok _ _ _ _ _ (read_list_Ok _ _ _ Hl)).
  rewrite Hm. reflexivity.
Qed.

Lemma assert_shape_consistent_Ok (w : world) (m : Matrix) lr lc lrd lcd rows rd cols cd :
  heap w !! lr = Some (OList rows) ->
  heap w !! lrd = Some (ODict rd) ->
  heap w !! lc = Some (OList cols) ->
  heap w !! lcd = Some (ODict cd) ->
  nrows m = length rows -> size rd = length rows ->
  ncols m = length cols -> size cd = length cols ->
  assert_shape_consistent m lr lc lrd lcd w = (Ok tt, w).
Proof.
  intros Hr Hrd Hc Hcd Hnr Hsr Hnc Hsc. unfold assert_shape_consistent.
  rewrite (bind_Ok _ _ _ _ _ (py_len_list _ _ _ Hr)).
  rewrite (bind_Ok _ _ _ _ _ (py_len_dict _ _ _ Hrd)).
  rewrite (bind_Ok _ _ _ _ _ (py_len_list _ _ _ Hc)).
  rewrite (bind_Ok _ _ _ _ _ (py_len_dict _ _ _ Hcd)).
  rewrite Hsr, Hsc, Hnr, Hnc, !Nat.eqb_refl. reflexivity.
Qed.

Lemma Space_init_Ok (w : world) (m : Matrix) lr lc lrd lcd lops rows rd cols cd :
  heap w !! lr = Some (OList rows) ->
  heap w !! lrd = Some (ODict rd) ->
  heap w !! lc = Some (OList cols) ->
  heap w !! lcd = Some (ODict cd) ->
  dict_match_list rd rows = true ->
  dict_match_list cd cols = true ->
  nrows m = length rows ->
  ncols m = length cols ->
  Space_init m lr lc (Some lrd) (Some lcd) (Some lops) w
  = (Ok (mkSpace m lrd lr lcd lc lops), w).
Proof.
  intros Hr Hrd Hc Hcd Hmr Hmc Hnr Hnc. unfold Space_init.
  erewrite bind_Ok;
    [| erewrite bind_Ok; [reflexivity | eapply assert_dict_match_list_Ok; eauto] ].
  erewrite bind_Ok;
    [| erewrite bind_Ok; [reflexivity | eapply assert_dict_match_list_Ok; eauto] ].
  apply dict_match_list_spec in Hmr as [Hsr _], Hmc as [Hsc _].
  erewrite bind_Ok; [| eapply assert_shape_consistent_Ok; eauto ].
  reflexivity.
Qed.

Ltac split_fresh H :=
  repeat match type of H with
         | <[_ := _]> _ !! _ = None =>
             let Hne := fresh "Hne" in
             apply lookup_insert_None in H as [H Hne]
         end.

Ltac solve_lookup :=
  cbn [heap warnings];
  repeat first [ rewrite lookup_insert_eq
               | rewrite lookup_insert_ne by congruence ];
  first [ reflexivity | eassumption ].

Ltac step_alloc :=
  match goal with
  | |- context [bind (alloc ?o) _ ?w] =>
      let l := fresh "l" in
      let Hf := fresh "Hfresh" in
      let Ha := fresh "Halloc" in
      destruct (alloc_fresh o w) as (l & Hf & Ha);
      cbn [heap warnings] in Hf, Ha; split_fresh Hf;
      rewrite (bind_Ok _ _ _ _ _ Ha); clear Ha
  end.

Ltac step_read lem :=
  erewrite bind_Ok; [| apply lem; solve_lookup ].

(** C2. [apply] with a weighting, whose operation returns a matrix of the
    shape of the one it is given: the result is a Space on new containers
    whose [id2row], [row2id], [id2column] and [column2id] hold what the
    original's hold and whose [operations] holds the original's followed by
    the new operation record. Nothing that was in the store is changed, so
    the original Space reads as before. *)
Theorem apply_weighting_keeps_mappings (w : world) (self : Space)
    (d : SpaceData) (op : Operation) (new_matrix : Matrix) :
  load w self = Some d -> valid w self = true ->
  op_apply op (cooccurrence_matrix self) = Ok new_matrix ->
  shape new_matrix = shape (cooccurrence_matrix self) ->
  exists (s' : Space) (w' : world),
    apply self (VTransformation (Weighting op)) w = (Ok s', w')
    /\ cooccurrence_matrix s' = new_matrix
    /\ load w' s'
       = Some (mkSpaceData (sd_id2row d) (sd_row2id d) (sd_id2column d)
                           (sd_column2id d) (sd_operations d ++ [op]))
    /\ valid w' s' = true
    /\ heap w !! _id2row s' = None /\ heap w !! _row2id s' = None
    /\ heap w !! _id2column s' = None /\ heap w !! _column2id s' = None
    /\ heap w !! _operations s' = None
    /\ (forall l o, heap w !! l = Some o -> heap w' !! l = Some o)
    /\ load w' self = Some d
    /\ warnings w' = warnings w.
Proof.
  intros Hload Hvalid Hop Hshape.
  destruct (valid_inv _ _ Hvalid) as (d' & Hload' & Hmr & Hmc & Hnr & Hnc).
  rewrite Hload in Hload'. injection Hload' as <-.
  destruct (load_inv _ _ _ Hload) as (Hr & Hrd & Hc & Hcd & Hops).
  injection Hshape as Hrows Hcols.
  unfold apply. cbn [as_Transformation assert_is_instance].
  unfold bind at 1. cbn [ret create_operation].
  unfold bind at 1, lift at 1. rewrite Hop.
  unfold operations, id2row, row2id, id2column, column2id.
  step_read read_ops_Ok. step_alloc.
  erewrite bind_Ok; [| apply ops_append_Ok; solve_lookup ].
  step_read read_list_Ok. step_alloc.
  step_read read_dict_Ok. step_alloc.
  unfold bind at 1.
  step_read read_list_Ok. step_alloc.
  step_read read_dict_Ok. step_alloc.
  cbn [ret].
  erewrite Space_init_Ok; [| solve_lookup .. | | | | ]; trivial; try congruence.
  do 2 eexists. split; [reflexivity|].
  assert (Hnew : load
     (World (<[l3:=ODict (sd_column2id d)]> (<[l2:=OList (sd_id2column d)]>
             (<[l1:=ODict (sd_row2id d)]> (<[l0:=OList (sd_id2row d)]>
             (<[l:=OOps (sd_operations d ++ [op])]>
             (<[l:=OOps (sd_operations d)]> (heap w)))))))
            (warnings w))
     (mkSpace new_matrix l1 l0 l3 l2 l)
     = Some (mkSpaceData (sd_id2row d) (sd_row2id d) (sd_id2column d)
                         (sd_column2id d) (sd_operations d ++ [op]))).
  { apply load_intro; cbn [_id2row _row2id _id2column _column2id _operations];
      solve_lookup. }
  cbn [_id2row _row2id _id2column _column2id _operations cooccurrence_matrix
       _cooccurrence_matrix].
  repeat split; trivial.
  - unfold valid. rewrite Hnew. unfold valid_data. cbn.
    rewrite Hmr, Hmc. cbn. rewrite Hrows, Hcols, Hnr, Hnc, !Nat.eqb_refl.
    reflexivity.
  - intros l' o Hl'. solve_lookup.
  - destruct d. apply load_intro; solve_lookup.
Qed.

(** [apply] with a feature selection subscripts the [id2column] list with
    the list of selected columns, which a Python list does not accept: the
    call raises a TypeError whenever the operation itself succeeds. *)
Lemma apply_feature_selection_raises (w : world) (self : Space)
    (d : SpaceData) (op : Operation) (selected_columns : list nat)
    (new_matrix : Matrix) :
  load w self = Some d ->
  op_apply op (cooccurrence_matrix self) = Ok new_matrix ->
  (apply self (VTransformation (FeatureSelection op selected_columns)) w).1
  = Raise (TypeError "list indices must be integers, not list").
Proof.
  intros Hload Hop.
  destruct (load_inv _ _ _ Hload) as (Hr & Hrd & Hc & Hcd & Hops).
  unfold apply. cbn [as_Transformation assert_is_instance].
  unfold bind at 1. cbn [ret create_operation].
  unfold bind at 1, lift at 1. rewrite Hop.
  unfold operations, id2row, row2id, id2column, column2id.
  step_read read_ops_Ok. step_alloc.
  erewrite bind_Ok; [| apply ops_append_Ok; solve_lookup ].
  step_read read_list_Ok. step_alloc.
  step_read read_dict_Ok. step_alloc.
  unfold bind at 1. unfold bind at 1. unfold list_getitem_by_list.
  step_read read_list_Ok. reflexivity.
Qed.

(** ** Stacking *)

Lemma dict_setitem_Ok (w : world) l d k v :
  heap w !! l = Some (ODict d) ->
  dict_setitem l k v w
  = (Ok tt, World (<[l := ODict (<[k := v]> d)]> (heap w)) (warnings w)).
Proof. unfold dict_setitem. intros ->. reflexivity. Qed.

Lemma add_items_loop_Ok (l : loc) (no_els : nat) (list_ : list string) :
  forall (w : world) (d : gmap string nat) (i : nat),
    heap w !! l = Some (ODict d) ->
    NoDup list_ ->
    Forall (fun x => d !! x = None) list_ ->
    add_items_loop l no_els i list_ w
    = (Ok tt,
       World (<[l := ODict (insert_items d no_els i list_)]> (heap w)) (warnings w)).
Proof.
  induction list_ as [|x rest IH]; intros w d i Hl Hnd Hnew; cbn [add_items_loop insert_items].
  - unfold ret. rewrite insert_id by exact Hl. now destruct w.
  - apply NoDup_cons in Hnd as [Hx Hnd].
    apply Forall_cons in Hnew as [Hdx Hnew].
    rewrite (bind_Ok _ _ _ _ _ (read_dict_Ok _ _ _ Hl)), Hdx.
    rewrite (bind_Ok _ _ _ _ _ (dict_setitem_Ok _ _ _ _ _ Hl)).
    erewrite IH; [| cbn [heap]; apply lookup_insert_eq | exact Hnd |].
    + cbn [heap warnings]. now rewrite insert_insert_eq.
    + rewrite Forall_forall in Hnew |- *. intros y Hy.
      rewrite lookup_insert_ne; [now apply Hnew|]. intros ->. now apply Hx.
Qed.

Lemma add_items_loop_duplicate (l : loc) (no_els : nat) (list_ : list string) :
  forall (w : world) (d : gmap string nat) (i : nat),
    heap w !! l = Some (ODict d) ->
    Exists (fun x => is_Some (d !! x)) list_ ->
    (add_items_loop l no_els i list_ w).1 = Raise DuplicateKey.
Proof.
  induction list_ as [|x rest IH]; intros w d i Hl Hdup; [inversion Hdup|].
  cbn [add_items_loop].
  rewrite (bind_Ok _ _ _ _ _ (read_dict_Ok _ _ _ Hl)).
  destruct (d !! x) as [j|] eqn:Hdx; [reflexivity|].
  rewrite (bind_Ok _ _ _ _ _ (dict_setitem_Ok _ _ _ _ _ Hl)).
  apply Exists_cons in Hdup as [[j Hj] | Hdup]; [congruence|].
  eapply IH; [cbn [heap]; apply lookup_insert_eq|].
  eapply Exists_impl; [exact Hdup|].
  intros y [j Hj]. cbn. destruct (decide (x = y)) as [->|Hne].
  - rewrite lookup_insert_eq. eauto.
  - rewrite lookup_insert_ne by exact Hne. eauto.
Qed.

Lemma insert_items_match (list_ : list string) :
  forall (d : gmap string nat) (l : list string) (no_els i : nat),
    dict_match_list d l = true ->
    no_els + i = length l ->
    NoDup list_ ->
    Forall (fun x => d !! x = None) list_ ->
    dict_match_list (insert_items d no_els i list_) (l ++ list_) = true.
Proof.
  induction list_ as [|x rest IH]; intros d l no_els i Hm Hlen Hnd Hnew;
    cbn [insert_items].
  - now rewrite app_nil_r.
  - apply NoDup_cons in Hnd as [Hx Hnd].
    apply Forall_cons in Hnew as [Hdx Hnew].
    replace (l ++ x :: rest) with ((l ++ [x]) ++ rest) by now rewrite <- app_assoc.
    apply IH; trivial.
    + apply dict_match_list_spec in Hm as [Hsize Hall].
      apply dict_match_list_spec. split.
      * rewrite map_size_insert_None by exact Hdx. rewrite length_app. cbn. lia.
      * intros j y Hj. destruct (decide (j < length l)) as [Hlt|Hge].
        -- rewrite lookup_app_l in Hj by exact Hlt.
           pose proof (Hall _ _ Hj) as Hdy.
           rewrite lookup_insert_ne; [exact Hdy|]. intros ->. congruence.
        -- rewrite lookup_app_r in Hj by lia.
           destruct (j - length l) as [|k] eqn:Hk; cbn in Hj; [|now destruct k].
           injection Hj as ->. rewrite lookup_insert_eq. f_equal. lia.
    + rewrite length_app. cbn. lia.
    + rewrite Forall_forall in Hnew |- *. intros y Hy.
      rewrite lookup_insert_ne; [now apply Hnew|]. intros ->. now apply Hx.
Qed.

Lemma add_items_to_dict_Ok (w : world) (dict_ list_ : loc) d xs :
  heap w !! dict_ = Some (ODict d) -> heap w !! list_ = Some (OList xs) ->
  NoDup xs -> Forall (fun x => d !! x = None) xs ->
  add_items_to_dict dict_ list_ w
  = (Ok dict_,
     World (<[dict_ := ODict (insert_items d (size d) 0 xs)]> (heap w)) (warnings w)).
Proof.
  intros Hd Hl Hnd Hnew. unfold add_items_to_dict.
  rewrite (bind_Ok _ _ _ _ _ (read_dict_Ok _ _ _ Hd)).
  rewrite (bind_Ok _ _ _ _ _ (read_list_Ok _ _ _ Hl)).
  rewrite (bind_Ok _ _ _ _ _ (add_items_loop_Ok _ _ _ _ _ _ Hd Hnd Hnew)).
  reflexivity.
Qed.

Lemma add_items_to_dict_duplicate (w : world) (dict_ list_ : loc) d xs :
  heap w !! dict_ = Some (ODict d) -> heap w !! list_ = Some (OList xs) ->
  Exists (fun x => is_Some (d !! x)) xs ->
  (add_items_to_dict dict_ list_ w).1 = Raise DuplicateKey.
Proof.
  intros Hd Hl Hdup. unfold add_items_to_dict.
  rewrite (bind_Ok _ _ _ _ _ (read_dict_Ok _ _ _ Hd)).
  rewrite (bind_Ok _ _ _ _ _ (read_list_Ok _ _ _ Hl)).
  apply bind_Raise_fst. now apply (add_items_loop_duplicate _ _ _ _ d).
Qed.

(** C4, as the code has it. For two valid Spaces with equal column counts:
    [vstack] raises the ColumnMismatch error (the ValueError for differing
    columns) when the [id2column] lists differ; when they are identical and no row string of
    the second Space is a row of the first, the result is a valid Space
    whose [id2row] is the first Space's rows followed by the second's, whose
    row count is the sum of the two and whose [operations] is empty; when
    they are identical and a row string is shared, [vstack] raises a
    DuplicateKey error. *)
Theorem vstack_rows_followed_by_rows (w : world) (s1 s2 : Space)
    (d1 d2 : SpaceData) :
  load w s1 = Some d1 -> valid w s1 = true ->
  load w s2 = Some d2 -> valid w s2 = true ->
  ncols (cooccurrence_matrix s1) = ncols (cooccurrence_matrix s2) ->
  (sd_id2column d1 <> sd_id2column d2 ->
     vstack s1 s2 w = (Raise ColumnMismatch, w))
  /\
  (sd_id2column d1 = sd_id2column d2 ->
   Forall (fun x => sd_row2id d1 !! x = None) (sd_id2row d2) ->
   exists (s' : Space) (w' : world),
     vstack s1 s2 w = (Ok s', w')
     /\ load w' s'
        = Some (mkSpaceData (sd_id2row d1 ++ sd_id2row d2)
                  (insert_items (sd_row2id d1) (size (sd_row2id d1)) 0 (sd_id2row d2))
                  (sd_id2column d1) (sd_column2id d1) [])
     /\ valid w' s' = true
     /\ nrows (cooccurrence_matrix s')
        = nrows (cooccurrence_matrix s1) + nrows (cooccurrence_matrix s2)
     /\ load w' s1 = Some d1 /\ load w' s2 = Some d2)
  /\
  (sd_id2column d1 = sd_id2column d2 ->
   Exists (fun x => is_Some (sd_row2id d1 !! x)) (sd_id2row d2) ->
   (vstack s1 s2 w).1 = Raise DuplicateKey).
Proof.
  intros Hload1 Hvalid1 Hload2 Hvalid2 Hcols.
  destruct (valid_inv _ _ Hvalid1) as (d' & Hload' & Hmr1 & Hmc1 & Hnr1 & Hnc1).
  rewrite Hload1 in Hload'. injection Hload' as <-.
  destruct (valid_inv _ _ Hvalid2) as (d' & Hload' & Hmr2 & Hmc2 & Hnr2 & Hnc2).
  rewrite Hload2 in Hload'. injection Hload' as <-.
  destruct (load_inv _ _ _ Hload1) as (Hr1 & Hrd1 & Hc1 & Hcd1 & Hops1).
  destruct (load_inv _ _ _ Hload2) as (Hr2 & Hrd2 & Hc2 & Hcd2 & Hops2).
  split; [|split].
  - intros Hdiff.
    unfold vstack. cbn [shape snd]. rewrite Hcols, Nat.eqb_refl. cbn [negb].
    unfold id2column.
    step_read read_list_Ok. step_read read_list_Ok.
    rewrite bool_decide_eq_false_2 by exact Hdiff. reflexivity.
  - intros Hsame Hnew.
    unfold vstack. cbn [shape snd]. rewrite Hcols, Nat.eqb_refl. cbn [negb].
    unfold operations, id2row, row2id, id2column, column2id.
    step_read read_list_Ok. step_read read_list_Ok.
    rewrite bool_decide_eq_true_2 by exact Hsame. cbn [negb].
    step_read read_dict_Ok. step_alloc.
    erewrite bind_Ok;
      [| eapply add_items_to_dict_Ok;
         [ solve_lookup | solve_lookup
         | eapply dict_match_list_NoDup; exact Hmr2 | exact Hnew ] ].
    cbn [heap warnings].
    step_read read_list_Ok. step_read read_list_Ok. step_alloc.
    unfold lift at 1, mat_vstack. rewrite Hcols, Nat.eqb_refl.
    unfold bind at 1.
    step_read read_list_Ok. step_alloc.
    step_read read_dict_Ok. step_alloc.
    step_alloc.
    assert (Hmatch : dict_match_list
              (insert_items (sd_row2id d1) (size (sd_row2id d1)) 0 (sd_id2row d2))
              (sd_id2row d1 ++ sd_id2row d2) = true).
    { apply insert_items_match; trivial.
      - apply dict_match_list_spec in Hmr1 as [-> _]. lia.
      - eapply dict_match_list_NoDup; exact Hmr2. }
    assert (Hlen : nrows (mkMatrix (ncols (cooccurrence_matrix s2))
                            (cells (cooccurrence_matrix s1) ++ cells (cooccurrence_matrix s2)))
                   = length (sd_id2row d1 ++ sd_id2row d2)).
    { unfold nrows in *. cbn. rewrite !length_app. lia. }
    erewrite Space_init_Ok; [| solve_lookup .. | | | | ];
      [| exact Hmatch | exact Hmc1 | exact Hlen | cbn [ncols]; congruence ].
    do 2 eexists. split; [reflexivity|].
    match goal with
    | |- load ?w' ?s' = _ /\ _ =>
        assert (Hnew' : load w' s'
          = Some (mkSpaceData (sd_id2row d1 ++ sd_id2row d2)
                    (insert_items (sd_row2id d1) (size (sd_row2id d1)) 0 (sd_id2row d2))
                    (sd_id2column d1) (sd_column2id d1) []))
    end.
    { apply load_intro; cbn [_id2row _row2id _id2column _column2id _operations];
        solve_lookup. }
    repeat split; trivial.
    + unfold valid. rewrite Hnew'. unfold valid_data.
      cbn [cooccurrence_matrix _cooccurrence_matrix sd_id2row sd_row2id
           sd_id2column sd_column2id].
      rewrite Hmatch, Hmc1. rewrite Hlen. cbn [ncols].
      rewrite <- Hcols, Hnc1, !Nat.eqb_refl. reflexivity.
    + cbn [cooccurrence_matrix _cooccurrence_matrix]. unfold nrows. cbn.
      now rewrite length_app.
    + destruct d1. apply load_intro; solve_lookup.
    + destruct d2. apply load_intro; solve_lookup.
  - intros Hsame Hdup.
    unfold vstack. cbn [shape snd]. rewrite Hcols, Nat.eqb_refl. cbn [negb].
    unfold operations, id2row, row2id, id2column, column2id.
    step_read read_list_Ok. step_read read_list_Ok.
    rewrite bool_decide_eq_true_2 by exact Hsame. cbn [negb].
    step_read read_dict_Ok. step_alloc.
    apply bind_Raise_fst.
    eapply add_items_to_dict_duplicate; [solve_lookup | solve_lookup | exact Hdup].
Qed.

(** ** Sorting by descending score *)

Section Sorting.

Context {SO : ScalarOrder R}.

Lemma insert_desc_perm (p : nat * R) (l : list (nat * R)) :
  insert_desc p l ≡ₚ p :: l.
Proof.
  induction l as [|q l IH]; cbn; [reflexivity|].
  destruct (leb q.2 p.2); [reflexivity|].
  rewrite IH. apply Permutation_swap.
Qed.

Lemma sort_desc_perm (l : list (nat * R)) : sort_desc l ≡ₚ l.
Proof.
  induction l as [|p l IH]; cbn; [reflexivity|].
  rewrite insert_desc_perm. now rewrite IH.
Qed.

Lemma insert_desc_sorted (p : nat * R) (l : list (nat * R)) :
  StronglySorted desc l -> StronglySorted desc (insert_desc p l).
Proof.
  induction 1 as [|q l Hsorted IH Hall]; cbn.
  - constructor; constructor.
  - destruct (leb q.2 p.2) eqn:Hqp.
    + constructor; [constructor; trivial|].
      constructor; [exact Hqp|].
      eapply Forall_impl; [exact Hall|].
      intros x Hx. unfold desc in *. eapply leb_trans; eauto.
    + constructor; [exact IH|].
      rewrite insert_desc_perm. constructor; [|exact Hall].
      unfold desc. destruct (leb_total p.2 q.2) as [Hpq|Hpq]; congruence.
Qed.

Lemma sort_desc_sorted (l : list (nat * R)) : StronglySorted desc (sort_desc l).
Proof.
  induction l as [|p l IH]; cbn; [constructor|].
  now apply insert_desc_sorted.
Qed.

Lemma StronglySorted_take {A : Type} (rel : A -> A -> Prop) (l : list A) n :
  StronglySorted rel l -> StronglySorted rel (take n l).
Proof.
  intros Hs. revert n. induction Hs as [|x l Hs IH Hall]; intros [|n]; cbn;
    try constructor; [apply IH|].
  apply Forall_take. exact Hall.
Qed.

Lemma StronglySorted_map {A B : Type} (relA : A -> A -> Prop)
    (relB : B -> B -> Prop) (f : A -> B) (l : list A) :
  (forall x y, relA x y -> relB (f x) (f y)) ->
  StronglySorted relA l -> StronglySorted relB (map f l).
Proof.
  intros Hf. induction 1 as [|x l Hs IH Hall]; cbn; constructor; trivial.
  apply Forall_map. eapply Forall_impl; [exact Hall|]. intros y. apply Hf.
Qed.

End Sorting.

(** ** Neighbours *)

(** The scores of a column vector, as the norms [sorted_permutation] sorts
    by and as the cells the loop reads. *)
Lemma column_vector_cells (sims : Matrix) (n : nat) :
  is_column_vector sims n = true ->
  length (mat_sum sims 1) = n
  /\ forall i x, mat_sum sims 1 !! i = Some x -> mat_getcell sims i 0 = Ok x.
Proof.
  unfold is_column_vector, mat_wf, nrows.
  rewrite !andb_true_iff, !Nat.eqb_eq, forallb_forall.
  intros [[Hc Hn] Hwf]. cbn [mat_sum]. split; [now rewrite length_map|].
  intros i x Hi. rewrite list_lookup_fmap in Hi.
  unfold mat_getcell.
  destruct (cells sims !! i) as [r|] eqn:Hr; cbn in Hi; [|discriminate].
  injection Hi as <-.
  assert (Hlen : length r = 1).
  { rewrite <- Hc. apply Nat.eqb_eq, Hwf, list_elem_of_In.
    eapply list_elem_of_lookup_2, Hr. }
  destruct r as [|y [|z r]]; try discriminate. reflexivity.
Qed.

Lemma list_getitem_Ok (w : world) l xs i x :
  heap w !! l = Some (OList xs) -> xs !! i = Some x ->
  list_getitem l i w = (Ok x, w).
Proof.
  intros Hl Hx. unfold list_getitem.
  rewrite (bind_Ok _ _ _ _ _ (read_list_Ok _ _ _ Hl)), Hx. reflexivity.
Qed.

Lemma neighbours_loop_Ok (w : world) (lrows : loc) (rows : list string)
    (sims : Matrix) (ps : list (nat * R)) :
  heap w !! lrows = Some (OList rows) ->
  Forall (fun p => p.1 < length rows /\ mat_getcell sims p.1 0 = Ok p.2) ps ->
  forall len a result,
    a + len <= length ps ->
    neighbours_loop (map fst ps) lrows sims (seq a len) result w
    = (Ok (result ++ map (neighbour_of rows) (take len (drop a ps))), w).
Proof.
  intros Hrows Hgood. induction len as [|len IH]; intros a result Hle.
  - cbn. now rewrite app_nil_r.
  - cbn [seq neighbours_loop].
    destruct (lookup_lt_is_Some_2 ps a ltac:(lia)) as [p Hp].
    rewrite list_lookup_fmap, Hp. cbn [fmap option_fmap option_map].
    rewrite Forall_forall in Hgood.
    destruct (Hgood p (list_elem_of_lookup_2 _ _ _ Hp)) as [Hlt Hcell].
    rewrite (bind_Ok _ _ _ _ _
               (list_getitem_Ok _ _ _ _ _ Hrows
                  (list_lookup_lookup_total_lt rows p.1 Hlt))).
    unfold bind at 1, lift at 1. rewrite Hcell.
    rewrite IH by lia.
    rewrite (drop_S _ _ _ Hp). cbn [take map].
    rewrite <- app_assoc. reflexivity.
Qed.

Lemma map_lookup_total_seq (rows : list string) :
  map (fun i => rows !!! i) (seq 0 (length rows)) = rows.
Proof.
  apply list_eq. intros i. rewrite list_lookup_fmap.
  destruct (decide (i < length rows)) as [Hlt|Hge].
  - rewrite lookup_seq_lt by exact Hlt. cbn.
    symmetry. now apply list_lookup_lookup_total_lt.
  - rewrite lookup_seq_ge by lia. cbn. symmetry. apply lookup_ge_None. lia.
Qed.

Lemma get_neighbours_absent (w : world) (self : Space) (d : SpaceData)
    (neighbour_space : option Space) (sim : Similarity) word k :
  load w self = Some d -> sd_row2id d !! word = None ->
  get_neighbours self word k (VSimilarity sim) neighbour_space w = (Ok [], w).
Proof.
  intros Hload Hw. unfold get_neighbours.
  cbn [as_Similarity assert_is_instance]. unfold bind at 1. cbn [ret].
  rewrite (bind_Ok _ _ _ _ _ (get_row_absent _ _ _ _ Hload Hw)). reflexivity.
Qed.

Section Neighbours.

Context {SO : ScalarOrder R}.

Lemma get_neighbours_present (w : world) (self : Space)
    (neighbour_space : option Space) (sim : Similarity) (dq : SpaceData)
    (word : string) (k : Z) (vector sims : Matrix) :
  load w (default self neighbour_space) = Some dq ->
  get_row self word w = (Ok (Some vector), w) ->
  get_sims_to_matrix sim vector (cooccurrence_matrix (default self neighbour_space))
  = Ok sims ->
  is_column_vector sims (length (sd_id2row dq)) = true ->
  exists result,
    get_neighbours self word k (VSimilarity sim) neighbour_space w = (Ok result, w)
    /\ length result = Z.to_nat (Z.min k (Z.of_nat (length (sd_id2row dq))))
    /\ scores_descending result
    /\ Forall (fun p => exists i, sd_id2row dq !! i = Some p.1
                                  /\ mat_getcell sims i 0 = Ok p.2) result
    /\ (Z.of_nat (length (sd_id2row dq)) <= k -> map fst result ≡ₚ sd_id2row dq)%Z.
Proof.
  intros Hload Hrow Hsims Hvec.
  destruct (load_inv _ _ _ Hload) as (Hr & _).
  destruct (column_vector_cells _ _ Hvec) as [Hlen Hcells].
  set (rows := sd_id2row dq) in *.
  set (norms := mat_sum sims 1) in *.
  set (ps := sort_desc (zip (seq 0 (length norms)) norms)).
  set (k' := Z.to_nat (Z.min k (Z.of_nat (length rows)))).
  assert (Hperm : ps ≡ₚ zip (seq 0 (length norms)) norms) by apply sort_desc_perm.
  assert (Hpslen : length ps = length rows).
  { rewrite Hperm, length_zip_with, length_seq. lia. }
  assert (Hgood : Forall (fun p => p.1 < length rows
                                   /\ mat_getcell sims p.1 0 = Ok p.2) ps).
  { rewrite Hperm. apply Forall_forall. intros [i x] [j Hj]%list_elem_of_lookup.
    rewrite lookup_zip_seq in Hj.
    destruct (norms !! j) as [y|] eqn:Hy; cbn in Hj; [|discriminate].
    injection Hj as <- <-. cbn. split.
    - rewrite <- Hlen. eapply lookup_lt_Some, Hy.
    - now apply Hcells. }
  assert (Hk' : 0 + k' <= length ps) by (unfold k'; lia).
  exists (map (neighbour_of rows) (take k' ps)). split; [|split; [|split; [|split]]].
  - unfold get_neighbours.
    cbn [as_Similarity assert_is_instance]. unfold bind at 1. cbn [ret].
    rewrite (bind_Ok _ _ _ _ _ Hrow).
    assert (Hpair :
      match neighbour_space with
      | Some neighbour_space0 =>
          let* sims0 := lift (get_sims_to_matrix sim vector
                                (cooccurrence_matrix neighbour_space0)) in
          ret (id2row neighbour_space0, sims0)
      | None =>
          let id2row0 := id2row self in
          let* sims0 := lift (get_sims_to_matrix sim vector
                                (cooccurrence_matrix self)) in
          ret (id2row0, sims0)
      end w = (Ok (id2row (default self neighbour_space), sims), w)).
    { destruct neighbour_space as [ns|];
        [ change (default self (Some ns)) with ns in *
        | change (default self None) with self in * ];
        unfold bind, lift; rewrite Hsims; reflexivity. }
    rewrite (bind_Ok _ _ _ _ _ Hpair).
    unfold id2row. rewrite (bind_Ok _ _ _ _ _ (py_len_list _ _ _ Hr)).
    unfold sorted_permutation, range.
    fold norms. fold ps. fold rows. fold k'.
    rewrite (neighbours_loop_Ok w _ rows sims ps Hr Hgood k' 0 [] Hk').
    reflexivity.
  - rewrite length_map, length_take. unfold k' in *. lia.
  - unfold scores_descending.
    apply (StronglySorted_map desc); [intros x y Hxy; exact Hxy|].
    apply StronglySorted_take, sort_desc_sorted.
  - apply Forall_map, Forall_take.
    eapply Forall_impl; [exact Hgood|]. intros p [Hlt Hcell].
    exists p.1. split; [|exact Hcell].
    cbn. now apply list_lookup_lookup_total_lt.
  - intros Hall. assert (Hk'n : k' = length ps) by (unfold k'; lia).
    rewrite Hk'n, firstn_all, map_map.
    change (map (fun p => (neighbour_of rows p).1) ps)
      with (map (fun p : nat * R => rows !!! p.1) ps).
    rewrite <- (map_map fst (fun i => rows !!! i)).
    rewrite Hperm, fst_zip by (rewrite length_seq; lia).
    rewrite Hlen. rewrite map_lookup_total_seq. reflexivity.
Qed.

(** C3. [get_neighbours] with a similarity capability on valid Spaces. For
    a word that is not a row of this Space the result is the empty list and
    no warning is emitted. Otherwise, when the capability returns a column
    vector with one score per row of the queried Space ([neighbour_space]
    when given, this Space otherwise), the result has [min(k, rows)] pairs
    (none for a negative [k]), each the target string of a row with its
    score, in non-increasing score order; for [k >= rows] the targets are
    all the rows. No warning is emitted. *)
Theorem get_neighbours_top_k (w : world) (self : Space)
    (neighbour_space : option Space) (sim : Similarity) (d dq : SpaceData)
    (word : string) (k : Z) :
  load w self = Some d -> valid w self = true ->
  load w (default self neighbour_space) = Some dq ->
  valid w (default self neighbour_space) = true ->
  (sd_row2id d !! word = None ->
     get_neighbours self word k (VSimilarity sim) neighbour_space w = (Ok [], w))
  /\
  (is_Some (sd_row2id d !! word) ->
   exists vector,
     get_row self word w = (Ok (Some vector), w)
     /\ forall sims,
          get_sims_to_matrix sim vector
            (cooccurrence_matrix (default self neighbour_space)) = Ok sims ->
          is_column_vector sims
            (nrows (cooccurrence_matrix (default self neighbour_space))) = true ->
          exists result,
            get_neighbours self word k (VSimilarity sim) neighbour_space w
            = (Ok result, w)
            /\ length result
               = Z.to_nat (Z.min k (Z.of_nat
                   (nrows (cooccurrence_matrix (default self neighbour_space)))))
            /\ scores_descending result
            /\ Forall (fun p => exists i, sd_id2row dq !! i = Some p.1
                                          /\ mat_getcell sims i 0 = Ok p.2) result
            /\ (Z.of_nat (nrows (cooccurrence_matrix (default self neighbour_space))) <= k ->
                map fst result ≡ₚ sd_id2row dq)%Z).
Proof.
  intros Hload Hvalid Hloadq Hvalidq. split.
  - intros Hw. eapply get_neighbours_absent; eauto.
  - intros Hw.
    destruct (get_row_cases w self d word Hload Hvalid)
      as [[Ha _] | (i & r & _ & _ & _ & Hrow)].
    { rewrite Ha in Hw. now destruct Hw. }
    eexists. split; [exact Hrow|]. intros sims Hsims Hvec.
    destruct (valid_inv _ _ Hvalidq) as (d' & Hload' & _ & _ & Hnr & _).
    rewrite Hloadq in Hload'. injection Hload' as <-.
    rewrite Hnr in *.
    eapply get_neighbours_present; eauto.
Qed.

End Neighbours.

(** ** What the queries leave alone *)

Local Abbreviation read_only m := (@read_only R _ m).
Local Abbreviation keeps h0 m Q := (@keeps R _ h0 m Q).

Lemma read_only_ret {A : Type} (a : A) : read_only (ret a).
Proof. intros w. reflexivity. Qed.

Lemma read_only_raise {A : Type} (e : exn) : read_only (raise (A := A) e).
Proof. intros w. reflexivity. Qed.

Lemma read_only_lift {A : Type} (r : res A) : read_only (lift r).
Proof. intros w. reflexivity. Qed.

Lemma read_only_bind {A B : Type} (m : St world A) (k : A -> St world B) :
  read_only m -> (forall a, read_only (k a)) -> read_only (bind m k).
Proof.
  intros Hm Hk w. unfold bind. specialize (Hm w).
  destruct (m w) as [[a|e] w1]; cbn in Hm; subst w1; [apply Hk | reflexivity].
Qed.

Lemma read_only_read_list l : read_only (read_list l).
Proof. intros w. unfold read_list. destruct (heap w !! l) as [[]|]; reflexivity. Qed.

Lemma read_only_read_dict l : read_only (read_dict l).
Proof. intros w. unfold read_dict. destruct (heap w !! l) as [[]|]; reflexivity. Qed.

Lemma read_only_py_len l : read_only (py_len l).
Proof. intros w. unfold py_len. destruct (heap w !! l) as [[]|]; reflexivity. Qed.

Lemma read_only_assert_is_instance {T : Type} (as_T : value -> option T) v :
  read_only (assert_is_instance as_T v).
Proof.
  unfold assert_is_instance. destruct (as_T v);
    [apply read_only_ret | apply read_only_raise].
Qed.

Lemma read_only_get_row (self : Space) word : read_only (get_row self word).
Proof.
  unfold get_row. apply read_only_bind; [apply read_only_read_dict|].
  intros d. destruct (d !! word); [|apply read_only_ret].
  apply read_only_bind; [apply read_only_lift | intros; apply read_only_ret].
Qed.

Lemma read_only_get_rows_loop (self : Space) words :
  forall row_ids, read_only (get_rows_loop self words row_ids).
Proof.
  induction words as [|word rest IH]; intros row_ids; cbn [get_rows_loop].
  - apply read_only_ret.
  - apply read_only_bind; [apply read_only_read_dict|].
    intros d. destruct (d !! word); [apply IH | apply read_only_raise].
Qed.

Lemma read_only_get_rows (self : Space) words : read_only (get_rows self words).
Proof.
  unfold get_rows. apply read_only_bind; [apply read_only_get_rows_loop|].
  intros; apply read_only_lift.
Qed.

Lemma read_only_list_getitem l i : read_only (list_getitem l i).
Proof.
  unfold list_getitem. apply read_only_bind; [apply read_only_read_list|].
  intros xs. destruct (xs !! i); [apply read_only_ret | apply read_only_raise].
Qed.

Lemma read_only_neighbours_loop sorted_perm l (sims : Matrix) counts :
  forall result, read_only (neighbours_loop sorted_perm l sims counts result).
Proof.
  induction counts as [|count rest IH]; intros result; cbn [neighbours_loop].
  - apply read_only_ret.
  - destruct (sorted_perm !! count); [|apply read_only_raise].
    apply read_only_bind; [apply read_only_list_getitem|]. intros target.
    apply read_only_bind; [apply read_only_lift|]. intros score. apply IH.
Qed.

Lemma read_only_get_neighbours (self : Space) word k similarity
    (neighbour_space : option Space) :
  read_only (get_neighbours self word k similarity neighbour_space).
Proof.
  unfold get_neighbours.
  apply read_only_bind; [apply read_only_assert_is_instance|]. intros sim.
  apply read_only_bind; [apply read_only_get_row|]. intros [vector|];
    [|apply read_only_ret].
  apply read_only_bind.
  - destruct neighbour_space;
      (apply read_only_bind; [apply read_only_lift | intros; apply read_only_ret]).
  - intros [l sims].
    apply read_only_bind; [apply read_only_py_len|]. intros n.
    apply read_only_neighbours_loop.
Qed.

(** X1. The row and neighbour queries only read: for every Space, valid or
    not, and every argument, [get_row], [get_rows] and [get_neighbours]
    return or raise with the store and the emitted warnings as they found
    them. *)
Theorem queries_only_read (self : Space) (word : string) (words : list string)
    (k : Z) (similarity : value) (neighbour_space : option Space) (w : world) :
  (get_row self word w).2 = w
  /\ (get_rows self words w).2 = w
  /\ (get_neighbours self word k similarity neighbour_space w).2 = w.
Proof.
  split; [apply read_only_get_row|].
  split; [apply read_only_get_rows | apply read_only_get_neighbours].
Qed.

(** X2. [get_sim] never changes the store and emits at most one warning:
    for every Space and argument, either the world is as it was found, or
    the result is [0.0] and exactly one warning, about [word1] or about
    [word2], was added. *)
Theorem get_sim_warns_only_with_zero (self : Space) (word1 word2 : string)
    (similarity : value) (space2 : option Space) (w : world) :
  (get_sim self word1 word2 similarity space2 w).2 = w
  \/ exists word,
       (word = word1 \/ word = word2)
       /\ get_sim self word1 word2 similarity space2 w
          = (Ok zero,
             World (heap w)
                   (warnings w ++ ["Row string " +:+ word +:+ " not found, returning 0.0"])).
Proof.
  unfold get_sim.
  pose proof (read_only_assert_is_instance as_Similarity similarity w) as Hinst.
  destruct (assert_is_instance as_Similarity similarity w) as [[sim|e] w1] eqn:Hi;
    cbn in Hinst; subst w1;
    [| left; now rewrite (bind_Raise _ _ _ _ _ Hi) ].
  rewrite !(bind_Ok _ _ _ _ _ Hi).
  pose proof (read_only_get_row self word1 w) as H1.
  destruct (get_row self word1 w) as [[v1|e] w1] eqn:Hg1;
    cbn in H1; subst w1;
    [| left; now rewrite (bind_Raise _ _ _ _ _ Hg1) ].
  rewrite !(bind_Ok _ _ _ _ _ Hg1).
  assert (H2 : read_only (match space2 with
                          | Some space3 => get_row space3 word2
                          | None => get_row self word2
                          end))
    by (destruct space2; apply read_only_get_row).
  specialize (H2 w).
  destruct (match space2 with
            | Some space3 => get_row space3 word2
            | None => get_row self word2
            end w) as [[v2|e] w1] eqn:Hg2; cbn in H2; subst w1;
    [| left; now rewrite (bind_Raise _ _ _ _ _ Hg2) ].
  rewrite !(bind_Ok _ _ _ _ _ Hg2).
  destruct v1 as [v1|]; [destruct v2 as [v2|]|].
  - left. reflexivity.
  - right. exists word2. split; [now right | reflexivity].
  - right. exists word1. split; [now left | reflexivity].
Qed.

(** ** What the transformations leave alone *)

Lemma keeps_ret {A : Type} h0 (a : A) (Q : A -> Prop) : Q a -> keeps h0 (ret a) Q.
Proof. intros HQ w Hsub. cbn. auto. Qed.

Lemma keeps_raise {A : Type} h0 (e : exn) (Q : A -> Prop) : keeps h0 (raise e) Q.
Proof. intros w Hsub. cbn. auto. Qed.

Lemma keeps_read_only {A : Type} h0 (m : St world A) :
  read_only m -> keeps h0 m (fun _ => True).
Proof.
  intros Hro w Hsub. rewrite (Hro w). repeat split; trivial.
  now destruct (m w).1.
Qed.

Lemma keeps_weaken {A : Type} h0 (m : St world A) (Q Q' : A -> Prop) :
  keeps h0 m Q -> (forall a, Q a -> Q' a) -> keeps h0 m Q'.
Proof.
  intros Hm HQ w Hsub. destruct (Hm w Hsub) as (Hh & Hw & Hr).
  repeat split; trivial. destruct (m w).1; auto.
Qed.

Lemma keeps_bind {A B : Type} h0 (m : St world A) (k : A -> St world B)
    (Q : A -> Prop) (Q' : B -> Prop) :
  keeps h0 m Q -> (forall a, Q a -> keeps h0 (k a) Q') -> keeps h0 (bind m k) Q'.
Proof.
  intros Hm Hk w Hsub. destruct (Hm w Hsub) as (Hh & Hw & Hr).
  unfold bind. destruct (m w) as [[a|e] w1]; cbn in *.
  - destruct (Hk a Hr w1 Hh) as (Hh' & Hw' & Hr'). rewrite Hw'. auto.
  - auto.
Qed.

Lemma keeps_alloc h0 (o : obj) : keeps h0 (alloc o) (fun l => h0 !! l = None).
Proof.
  intros w Hsub. cbn.
  assert (Hfresh : h0 !! fresh (dom (heap w)) = None).
  { eapply lookup_weaken_None; [|exact Hsub].
    apply not_elem_of_dom, is_fresh. }
  repeat split; trivial. now apply insert_subseteq_r.
Qed.

Lemma keeps_ops_append h0 l (op : Operation) :
  h0 !! l = None -> keeps h0 (ops_append l op) (fun _ => True).
Proof.
  intros Hl w Hsub. unfold ops_append.
  destruct (heap w !! l) as [[]|]; cbn; repeat split; trivial.
  now apply insert_subseteq_r.
Qed.

Lemma keeps_dict_setitem h0 l k v :
  h0 !! l = None -> keeps h0 (dict_setitem l k v) (fun _ => True).
Proof.
  intros Hl w Hsub. unfold dict_setitem.
  destruct (heap w !! l) as [[]|]; cbn; repeat split; trivial.
  now apply insert_subseteq_r.
Qed.

Lemma keeps_list2dict h0 l : keeps h0 (list2dict l) (fun d => h0 !! d = None).
Proof.
  unfold list2dict.
  eapply keeps_bind; [apply keeps_read_only, read_only_read_list|].
  intros xs _. apply keeps_alloc.
Qed.

Lemma read_only_assert_dict_match_list ld ll :
  read_only (assert_dict_match_list ld ll).
Proof.
  unfold assert_dict_match_list.
  apply read_only_bind; [apply read_only_read_dict|]. intros d.
  apply read_only_bind; [apply read_only_read_list|]. intros xs.
  destruct (dict_match_list d xs); [apply read_only_ret | apply read_only_raise].
Qed.

Lemma read_only_assert_shape_consistent (m : Matrix) l1 l2 l3 l4 :
  read_only (assert_shape_consistent m l1 l2 l3 l4).
Proof.
  unfold assert_shape_consistent.
  do 4 (apply read_only_bind; [apply read_only_py_len|]; intros ?).
  match goal with |- read_only (if ?b then _ else _) => destruct b end;
    [apply read_only_ret | apply read_only_raise].
Qed.

Lemma keeps_Space_init h0 (m : Matrix) lr lc orow ocol oops :
  keeps h0 (Space_init m lr lc orow ocol oops) (fun _ => True).
Proof.
  unfold Space_init.
  eapply keeps_bind with (Q := fun _ => True).
  { destruct orow as [d|].
    - eapply keeps_bind;
        [apply keeps_read_only, read_only_assert_dict_match_list|].
      intros _ _. now apply keeps_ret.
    - eapply keeps_weaken; [apply keeps_list2dict | trivial]. }
  intros row2id0 _.
  eapply keeps_bind with (Q := fun _ => True).
  { destruct ocol as [d|].
    - eapply keeps_bind;
        [apply keeps_read_only, read_only_assert_dict_match_list|].
      intros _ _. now apply keeps_ret.
    - eapply keeps_weaken; [apply keeps_list2dict | trivial]. }
  intros column2id0 _.
  eapply keeps_bind;
    [apply keeps_read_only, read_only_assert_shape_consistent|].
  intros _ _.
  eapply keeps_bind with (Q := fun _ => True).
  { destruct oops; [now apply keeps_ret|].
    eapply keeps_weaken; [apply keeps_alloc | trivial]. }
  intros ops0 _. now apply keeps_ret.
Qed.

Lemma read_only_read_ops l : read_only (read_ops l).
Proof. intros w. unfold read_ops. destruct (heap w !! l) as [[]|]; reflexivity. Qed.

Lemma keeps_apply h0 (self : Space) (transformation : value) :
  keeps h0 (apply self transformation) (fun _ => True).
Proof.
  unfold apply.
  eapply keeps_bind; [apply keeps_read_only, read_only_assert_is_instance|].
  intros t _. cbn zeta.
  eapply keeps_bind; [apply keeps_read_only, read_only_lift|]. intros new_matrix _.
  eapply keeps_bind; [apply keeps_read_only, read_only_read_ops|]. intros ops _.
  eapply keeps_bind; [apply keeps_alloc|]. intros new_operations Hnew.
  eapply keeps_bind; [now apply keeps_ops_append|]. intros _ _.
  eapply keeps_bind; [apply keeps_read_only, read_only_read_list|]. intros rows _.
  eapply keeps_bind; [apply keeps_alloc|]. intros id2row0 _.
  eapply keeps_bind; [apply keeps_read_only, read_only_read_dict|]. intros rd _.
  eapply keeps_bind; [apply keeps_alloc|]. intros row2id0 _.
  eapply keeps_bind with (Q := fun _ => True).
  { destruct t as [op|op|op selected_columns].
    - eapply keeps_bind; [apply keeps_read_only, read_only_read_list|]. intros cols _.
      eapply keeps_bind; [apply keeps_alloc|]. intros id2column0 _.
      eapply keeps_bind; [apply keeps_read_only, read_only_read_dict|]. intros cd _.
      eapply keeps_bind; [apply keeps_alloc|]. intros column2id0 _.
      now apply keeps_ret.
    - eapply keeps_bind; [apply keeps_alloc|]. intros id2column0 _.
      eapply keeps_bind; [apply keeps_alloc|]. intros column2id0 _.
      now apply keeps_ret.
    - eapply keeps_bind with (Q := fun _ => True).
      + unfold list_getitem_by_list.
        eapply keeps_bind; [apply keeps_read_only, read_only_read_list|].
        intros _ _. apply keeps_raise.
      + intros id2column0 _.
        eapply keeps_bind; [apply keeps_list2dict|]. intros column2id0 _.
        now apply keeps_ret. }
  intros [id2column0 column2id0] _. apply keeps_Space_init.
Qed.

Lemma keeps_add_items_loop h0 dict_ no_els list_ :
  h0 !! dict_ = None ->
  forall i, keeps h0 (add_items_loop dict_ no_els i list_) (fun _ => True).
Proof.
  intros Hd. induction list_ as [|el rest IH]; intros i; cbn [add_items_loop].
  - now apply keeps_ret.
  - eapply keeps_bind; [apply keeps_read_only, read_only_read_dict|]. intros d _.
    destruct (d !! el); [apply keeps_raise|].
    eapply keeps_bind; [now apply keeps_dict_setitem|]. intros _ _. apply IH.
Qed.

Lemma keeps_vstack h0 (self space_ : Space) :
  keeps h0 (vstack self space_) (fun _ => True).
Proof.
  unfold vstack. cbn zeta.
  match goal with |- keeps _ (if ?b then _ else _) _ => destruct b end;
    [apply keeps_raise|].
  eapply keeps_bind; [apply keeps_read_only, read_only_read_list|]. intros cols1 _.
  eapply keeps_bind; [apply keeps_read_only, read_only_read_list|]. intros cols2 _.
  match goal with |- keeps _ (if ?b then _ else _) _ => destruct b end;
    [apply keeps_raise|].
  eapply keeps_bind; [apply keeps_read_only, read_only_read_dict|]. intros rd _.
  eapply keeps_bind; [apply keeps_alloc|]. intros rd_copy Hcopy.
  eapply keeps_bind with (Q := fun _ => True).
  { unfold add_items_to_dict.
    eapply keeps_bind; [apply keeps_read_only, read_only_read_dict|]. intros d _.
    eapply keeps_bind; [apply keeps_read_only, read_only_read_list|]. intros xs _.
    eapply keeps_bind; [now apply keeps_add_items_loop|]. intros _ _.
    now apply keeps_ret. }
  intros new_row2id _.
  eapply keeps_bind; [apply keeps_read_only, read_only_read_list|]. intros rows1 _.
  eapply keeps_bind; [apply keeps_read_only, read_only_read_list|]. intros rows2 _.
  eapply keeps_bind; [apply keeps_alloc|]. intros new_id2row _.
  eapply keeps_bind; [apply keeps_read_only, read_only_lift|]. intros new_mat _.
  eapply keeps_bind; [apply keeps_read_only, read_only_read_list|]. intros cols _.
  eapply keeps_bind; [apply keeps_alloc|]. intros id2column_copy _.
  eapply keeps_bind; [apply keeps_read_only, read_only_read_dict|]. intros cd _.
  eapply keeps_bind; [apply keeps_alloc|]. intros column2id_copy _.
  eapply keeps_bind; [apply keeps_alloc|]. intros no_operations _.
  apply keeps_Space_init.
Qed.

Lemma load_weaken (w w' : world) (s : Space) (d : SpaceData) :
  heap w ⊆ heap w' -> load w s = Some d -> load w' s = Some d.
Proof.
  intros Hsub (Hr & Hrd & Hc & Hcd & Hops)%load_inv.
  destruct d. apply load_intro; eapply lookup_weaken; eauto.
Qed.

(** X3. [apply] and [vstack] never change an object that is in the store:
    for every Space and every argument, whether the call returns or raises,
    the store it ends in holds every object of the store it started in,
    unchanged, and no warning is emitted. *)
Theorem transformations_keep_the_store (self space_ : Space)
    (transformation : value) (w : world) :
  (heap w ⊆ heap (apply self transformation w).2
   /\ warnings (apply self transformation w).2 = warnings w)
  /\ (heap w ⊆ heap (vstack self space_ w).2
      /\ warnings (vstack self space_ w).2 = warnings w).
Proof.
  split.
  - destruct (keeps_apply (heap w) self transformation w) as (Hh & Hw & _); auto.
  - destruct (keeps_vstack (heap w) self space_ w) as (Hh & Hw & _); auto.
Qed.

(** ** What a returned Space satisfies *)

Lemma bind_Ok_inv {S A B : Type} (m : St S A) (k : A -> St S B) s b s' :
  bind m k s = (Ok b, s') ->
  exists a s1, m s = (Ok a, s1) /\ k a s1 = (Ok b, s').
Proof.
  unfold bind. destruct (m s) as [[a|e] s1]; [eauto | discriminate].
Qed.

Lemma read_list_Ok_inv (w w1 : world) l xs :
  read_list l w = (Ok xs, w1) -> w1 = w /\ heap w !! l = Some (OList xs).
Proof.
  unfold read_list. destruct (heap w !! l) as [[]|]; intros E;
    inversion E; subst; auto.
Qed.

Lemma read_dict_Ok_inv (w w1 : world) l d :
  read_dict l w = (Ok d, w1) -> w1 = w /\ heap w !! l = Some (ODict d).
Proof.
  unfold read_dict. destruct (heap w !! l) as [[]|]; intros E;
    inversion E; subst; auto.
Qed.

Lemma alloc_Ok_inv (w w1 : world) o l :
  alloc o w = (Ok l, w1) ->
  heap w !! l = None /\ w1 = World (<[l := o]> (heap w)) (warnings w).
Proof.
  unfold alloc. intros E. inversion E; subst. split; [|reflexivity].
  apply not_elem_of_dom, is_fresh.
Qed.

Lemma list2dict_from_insert_items (l : list string) :
  forall i d, list2dict_from i l d = insert_items d 0 i l.
Proof. induction l as [|x l IH]; intros i d; cbn; [reflexivity | apply IH]. Qed.

Lemma insert_items_size_le (l : list string) :
  forall d n i, size (insert_items d n i l) <= size d + length l.
Proof.
  induction l as [|x l IH]; intros d n i; cbn [insert_items length]; [lia|].
  specialize (IH (<[x := n + i]> d) n (S i)).
  destruct (d !! x) as [j|] eqn:Hx.
  - rewrite (map_size_insert_Some _ _ _ (mk_is_Some _ _ Hx)) in IH. lia.
  - rewrite (map_size_insert_None _ _ _ Hx) in IH. lia.
Qed.

(** The dict grows by the length of the list only if the strings are new
    and pairwise distinct. *)
Lemma insert_items_size_eq (l : list string) :
  forall d n i,
    size (insert_items d n i l) = size d + length l ->
    NoDup l /\ Forall (fun x => d !! x = None) l.
Proof.
  induction l as [|x l IH]; intros d n i Hsize; cbn [insert_items length] in Hsize.
  - split; constructor.
  - pose proof (insert_items_size_le l (<[x := n + i]> d) n (S i)) as Hle.
    destruct (d !! x) as [j|] eqn:Hx.
    + rewrite (map_size_insert_Some _ _ _ (mk_is_Some _ _ Hx)) in Hle. lia.
    + rewrite (map_size_insert_None _ _ _ Hx) in Hle.
      destruct (IH (<[x := n + i]> d) n (S i)) as [Hnd Hnew].
      { rewrite (map_size_insert_None _ _ _ Hx). lia. }
      rewrite Forall_forall in Hnew.
      assert (Hnotin : x ∉ l).
      { intros Hin. specialize (Hnew x Hin).
        rewrite lookup_insert_eq in Hnew. discriminate. }
      split; [constructor; trivial|].
      constructor; [exact Hx|]. apply Forall_forall. intros y Hy.
      specialize (Hnew y Hy). rewrite lookup_insert_ne in Hnew; [exact Hnew|].
      intros ->. contradiction.
Qed.

Lemma dict_match_list_nil : dict_match_list ∅ [] = true.
Proof.
  apply dict_match_list_spec. split; [apply map_size_empty|].
  intros i x Hx. destruct i; discriminate.
Qed.

(** [list2dict] of a list without repetition is its exact inverse. *)
Lemma list2dict_match (xs : list string) :
  NoDup xs -> dict_match_list (list2dict_from 0 xs ∅) xs = true.
Proof.
  intros Hnd. rewrite list2dict_from_insert_items.
  apply (insert_items_match xs ∅ [] 0 0 dict_match_list_nil eq_refl Hnd).
  apply Forall_forall. intros x _. apply lookup_empty.
Qed.

Lemma list2dict_size_NoDup (xs : list string) :
  size (list2dict_from 0 xs ∅) = length xs -> NoDup xs.
Proof.
  rewrite list2dict_from_insert_items. intros Hsize.
  apply (insert_items_size_eq xs ∅ 0 0).
  rewrite map_size_empty. exact Hsize.
Qed.


(** One mapping argument of the constructor, supplied or omitted: when the
    step returns, the list is a list object and the mapping is a dict object
    of the store it ends in, which is the store it started in, with the new
    dict when the mapping was omitted. *)
Lemma mapping_step_inv (w w1 : world) (o : option loc) (ll ld : loc) :
  match o with
  | None => list2dict ll
  | Some d => let* _ := assert_dict_match_list d ll in ret d
  end w = (Ok ld, w1) ->
  exists xs dd,
    heap w !! ll = Some (OList xs)
    /\ heap w1 !! ld = Some (ODict dd)
    /\ ((o = Some ld /\ w1 = w /\ dict_match_list dd xs = true)
        \/ (o = None /\ heap w !! ld = None /\ dd = list2dict_from 0 xs ∅
            /\ w1 = World (<[ld := ODict dd]> (heap w)) (warnings w))).
Proof.
  destruct o as [d|]; intros Hstep.
  - apply bind_Ok_inv in Hstep as ([] & w2 & Hassert & Hret).
    injection Hret as <- <-.
    unfold assert_dict_match_list in Hassert.
    apply bind_Ok_inv in Hassert as (dd & w3 & [-> Hd]%read_dict_Ok_inv & Hassert).
    apply bind_Ok_inv in Hassert as (xs & w3 & [-> Hl]%read_list_Ok_inv & Hassert).
    destruct (dict_match_list dd xs) eqn:Hm; [|discriminate].
    injection Hassert as <-. exists xs, dd. auto 10.
  - unfold list2dict in Hstep.
    apply bind_Ok_inv in Hstep as (xs & w2 & [-> Hl]%read_list_Ok_inv & Halloc).
    apply alloc_Ok_inv in Halloc as [Hfresh ->]. cbn [heap warnings].
    exists xs, (list2dict_from 0 xs ∅). repeat split; trivial.
    + apply lookup_insert_eq.
    + right. auto.
Qed.

Lemma mapping_step_frame (w w1 : world) (o : option loc) (ld : loc) dd :
  (o = Some ld /\ w1 = w)
  \/ (o = None /\ heap w !! ld = None
      /\ w1 = World (<[ld := ODict dd]> (heap w)) (warnings w)) ->
  heap w ⊆ heap w1 /\ warnings w1 = warnings w
  /\ forall l xs, heap w1 !! l = Some (OList xs) -> heap w !! l = Some (OList xs).
Proof.
  intros [(_ & ->) | (_ & Hfresh & ->)]; cbn [heap warnings].
  - auto.
  - repeat split; [now apply insert_subseteq|].
    intros l xs Hl. destruct (decide (ld = l)) as [->|Hne].
    + rewrite lookup_insert_eq in Hl. discriminate.
    + now rewrite lookup_insert_ne in Hl.
Qed.

Lemma assert_shape_consistent_Ok_inv (w w1 : world) (m : Matrix)
    lr lc lrd lcd rows rd cols cd :
  heap w !! lr = Some (OList rows) ->
  heap w !! lrd = Some (ODict rd) ->
  heap w !! lc = Some (OList cols) ->
  heap w !! lcd = Some (ODict cd) ->
  assert_shape_consistent m lr lc lrd lcd w = (Ok tt, w1) ->
  w1 = w
  /\ nrows m = length rows /\ nrows m = size rd
  /\ ncols m = length cols /\ ncols m = size cd.
Proof.
  intros Hr Hrd Hc Hcd. unfold assert_shape_consistent.
  rewrite (bind_Ok _ _ _ _ _ (py_len_list _ _ _ Hr)).
  rewrite (bind_Ok _ _ _ _ _ (py_len_dict _ _ _ Hrd)).
  rewrite (bind_Ok _ _ _ _ _ (py_len_list _ _ _ Hc)).
  rewrite (bind_Ok _ _ _ _ _ (py_len_dict _ _ _ Hcd)).
  destruct (_ && _) eqn:Hcheck; [|discriminate].
  intros E. injection E as <-.
  rewrite !andb_true_iff, !Nat.eqb_eq in Hcheck. intuition.
Qed.

Lemma mapping_checked (dd : gmap string nat) (xs : list string) n :
  dict_match_list dd xs = true \/ dd = list2dict_from 0 xs ∅ ->
  n = length xs -> n = size dd ->
  dict_match_list dd xs = true.
Proof.
  intros [Hm | ->] Hlen Hsize; [exact Hm|].
  apply list2dict_match, list2dict_size_NoDup. congruence.
Qed.

Lemma Space_init_inv (w w' : world) (m : Matrix) lr lc orow ocol oops (s : Space) :
  Space_init m lr lc orow ocol oops w = (Ok s, w') ->
  match oops with
  | Some l => exists ops, heap w !! l = Some (OOps ops)
  | None => True
  end ->
  exists rows rd cols cd ops,
    load w' s = Some (mkSpaceData rows rd cols cd ops)
    /\ valid w' s = true
    /\ heap w ⊆ heap w' /\ warnings w' = warnings w
    /\ heap w !! lr = Some (OList rows) /\ heap w !! lc = Some (OList cols)
    /\ cooccurrence_matrix s = m /\ _id2row s = lr /\ _id2column s = lc
    /\ match oops with
       | Some l => _operations s = l
       | None => ops = [] /\ heap w !! _operations s = None
       end
    /\ (forall l, orow = Some l -> _row2id s = l)
    /\ (forall l, ocol = Some l -> _column2id s = l).
Proof.
  unfold Space_init. intros Hinit Hops.
  apply bind_Ok_inv in Hinit as (lrd & w1 & Hstep1 & Hinit).
  apply mapping_step_inv in Hstep1 as (rows & rd & Hr & Hrd & Hcase1).
  apply bind_Ok_inv in Hinit as (lcd & w2 & Hstep2 & Hinit).
  apply mapping_step_inv in Hstep2 as (cols & cd & Hc & Hcd & Hcase2).
  apply bind_Ok_inv in Hinit as ([] & w3 & Hshape & Hinit).
  destruct (mapping_step_frame w w1 orow lrd rd) as (Hsub1 & Hw1 & Hlist1).
  { destruct Hcase1 as [(? & ? & _) | (? & ? & _ & ?)]; auto. }
  destruct (mapping_step_frame w1 w2 ocol lcd cd) as (Hsub2 & Hw2 & Hlist2).
  { destruct Hcase2 as [(? & ? & _) | (? & ? & _ & ?)]; auto. }
  pose proof (Hlist1 _ _ Hc) as Hc0.
  pose proof (lookup_weaken _ _ _ _ Hr Hsub1) as Hr1.
  pose proof (lookup_weaken _ _ _ _ Hr1 Hsub2) as Hr2.
  pose proof (lookup_weaken _ _ _ _ Hrd Hsub2) as Hrd2.
  pose proof (lookup_weaken _ _ _ _ Hc Hsub2) as Hc2.
  apply (assert_shape_consistent_Ok_inv _ _ _ _ _ _ _ _ _ _ _ Hr2 Hrd2 Hc2 Hcd)
    in Hshape as (-> & Hnr & Hsr & Hnc & Hsc).
  assert (Hmr : dict_match_list rd rows = true).
  { eapply mapping_checked; [|exact Hnr | exact Hsr].
    destruct Hcase1 as [(_ & _ & ?) | (_ & _ & ? & _)]; auto. }
  assert (Hmc : dict_match_list cd cols = true).
  { eapply mapping_checked; [|exact Hnc | exact Hsc].
    destruct Hcase2 as [(_ & _ & ?) | (_ & _ & ? & _)]; auto. }
  apply bind_Ok_inv in Hinit as (lops & w4 & Hopsstep & Hret).
  injection Hret as <- <-.
  assert (Hsub : heap w ⊆ heap w2) by (etrans; eauto).
  assert (Hvalid : forall (w4 : world) ops,
            heap w2 ⊆ heap w4 -> heap w4 !! lops = Some (OOps ops) ->
            load w4 (mkSpace m lrd lr lcd lc lops)
            = Some (mkSpaceData rows rd cols cd ops)
            /\ valid w4 (mkSpace m lrd lr lcd lc lops) = true).
  { intros w5 ops Hsub5 Hl5.
    assert (Hload : load w5 (mkSpace m lrd lr lcd lc lops)
                    = Some (mkSpaceData rows rd cols cd ops)).
    { apply load_intro; cbn; trivial; eapply lookup_weaken; eauto. }
    split; [exact Hload|]. unfold valid. rewrite Hload. unfold valid_data. cbn.
    rewrite Hmr, Hmc, Hnr, Hnc, !Nat.eqb_refl. reflexivity. }
  assert (Hlocs : (forall l, orow = Some l -> lrd = l)
                  /\ (forall l, ocol = Some l -> lcd = l)).
  { split; intros l ->.
    - destruct Hcase1 as [(E & _) | (E & _)]; congruence.
    - destruct Hcase2 as [(E & _) | (E & _)]; congruence. }
  destruct Hlocs as [Hlocr Hlocc].
  destruct oops as [l|].
  - injection Hopsstep as <- <-. destruct Hops as [ops Hl].
    destruct (Hvalid w2 ops) as [Hload Hv]; [reflexivity | eapply lookup_weaken; eauto |].
    exists rows, rd, cols, cd, ops. repeat split; trivial. congruence.
  - apply alloc_Ok_inv in Hopsstep as [Hfresh ->].
    destruct (Hvalid (World (<[lops := OOps []]> (heap w2)) (warnings w2)) [])
      as [Hload Hv]; cbn [heap];
      [now apply insert_subseteq | apply lookup_insert_eq |].
    exists rows, rd, cols, cd, []. cbn [heap warnings]. repeat split; trivial.
    + etrans; [exact Hsub|]. now apply insert_subseteq.
    + congruence.
    + eapply lookup_weaken_None; eauto.
Qed.





(** ** Round trips of the row lookups *)

Lemma lookup_all_seq {A : Type} (l : list A) :
  forall pre, lookup_all (pre ++ l) (seq (length pre) (length l)) = Ok l.
Proof.
  induction l as [|x l IH]; intros pre; cbn [length seq lookup_all]; [reflexivity|].
  rewrite lookup_app_r by lia. rewrite Nat.sub_diag. cbn [lookup list_lookup].
  specialize (IH (pre ++ [x])). rewrite <- app_assoc, length_app in IH.
  cbn in IH. rewrite Nat.add_1_r in IH. rewrite IH. reflexivity.
Qed.

Lemma lookup_all_app {A : Type} (l : list A) ids1 ids2 xs1 xs2 :
  lookup_all l ids1 = Ok xs1 -> lookup_all l ids2 = Ok xs2 ->
  lookup_all l (ids1 ++ ids2) = Ok (xs1 ++ xs2).
Proof.
  revert xs1. induction ids1 as [|i ids1 IH]; intros xs1 H1 H2; cbn in *.
  - injection H1 as <-. exact H2.
  - destruct (l !! i) as [x|]; [|discriminate].
    destruct (lookup_all l ids1) as [ys|] eqn:Hys; cbn in H1; [|discriminate].
    injection H1 as <-. rewrite (IH ys eq_refl H2). reflexivity.
Qed.

Lemma lookup_all_result {A : Type} (l : list A) ids :
  (exists xs, lookup_all l ids = Ok xs)
  \/ lookup_all l ids = Raise (IndexError "row index out of range").
Proof.
  induction ids as [|i ids IH]; cbn; [eauto|].
  destruct (l !! i); [|now right].
  destruct IH as [[xs ->] | ->]; cbn; eauto.
Qed.

(** In a valid Space the indices of all the targets, in order, are
    [0, 1, ..]. *)
Lemma row_ids_of_all_targets (d : gmap string nat) (rows : list string) ids :
  dict_match_list d rows = true ->
  Forall2 (fun x i => d !! x = Some i) rows ids ->
  ids = seq 0 (length rows).
Proof.
  intros [_ Hall]%dict_match_list_spec Hids.
  apply list_eq. intros j.
  destruct (rows !! j) as [x|] eqn:Hx.
  - destruct (Forall2_lookup_l _ _ _ _ _ Hids Hx) as (i & Hi & Hdi).
    rewrite (Hall _ _ Hx) in Hdi. injection Hdi as <-.
    rewrite Hi. symmetry. apply lookup_seq_lt. eapply lookup_lt_Some, Hx.
  - pose proof (Forall2_length _ _ _ Hids) as Hlen.
    apply lookup_ge_None in Hx.
    rewrite (proj2 (lookup_ge_None ids j)) by lia.
    symmetry. apply lookup_seq_ge. lia.
Qed.

(** X6. Targets and rows correspond in a valid Space: [get_row] of the
    [i]-th target string returns the [i]-th row of the matrix, and [get_rows]
    of all the targets in order returns the matrix itself. *)
Theorem rows_are_fetched_by_their_targets (w : world) (self : Space)
    (d : SpaceData) :
  load w self = Some d -> valid w self = true ->
  (forall i word, sd_id2row d !! i = Some word ->
     exists r, cells (cooccurrence_matrix self) !! i = Some r
       /\ get_row self word w
          = (Ok (Some (mkMatrix (ncols (cooccurrence_matrix self)) [r])), w))
  /\ get_rows self (sd_id2row d) w = (Ok (cooccurrence_matrix self), w).
Proof.
  intros Hload Hvalid.
  destruct (valid_inv _ _ Hvalid) as (d' & Hload' & Hmr & _ & Hnr & _).
  rewrite Hload in Hload'. injection Hload' as <-.
  pose proof (proj2 (proj1 (dict_match_list_spec _ _) Hmr)) as Hall.
  split.
  - intros i word Hi.
    destruct (valid_row_exists _ _ _ _ _ Hload Hvalid (Hall _ _ Hi)) as [_ [r Hr]].
    exists r. split; [exact Hr|]. eapply get_row_present; eauto.
  - assert (Hpresent : Forall (fun x => is_Some (sd_row2id d !! x)) (sd_id2row d)).
    { apply Forall_forall. intros x [i Hi]%list_elem_of_lookup.
      rewrite (Hall _ _ Hi). eauto. }
    destruct (get_rows_loop_found w self d _ Hload Hpresent []) as (ids & Hloop & Hids).
    rewrite (row_ids_of_all_targets _ _ _ Hmr Hids) in Hloop.
    unfold get_rows. rewrite (bind_Ok _ _ _ _ _ Hloop). cbn [app].
    unfold lift, mat_getrows. rewrite <- Hnr. unfold nrows.
    pose proof (lookup_all_seq (cells (cooccurrence_matrix self)) []) as Hall'.
    cbn [app length] in Hall'. rewrite Hall'. cbn.
    now destruct (cooccurrence_matrix self).
Qed.

Lemma bind_assoc {S A B C : Type} (m : St S A) (k1 : A -> St S B)
    (k2 : B -> St S C) s :
  bind (bind m k1) k2 s = bind m (fun a => bind (k1 a) k2) s.
Proof. unfold bind. destruct (m s) as [[a|e] s1]; reflexivity. Qed.

Lemma get_rows_loop_app (self : Space) (words1 words2 : list string) :
  forall row_ids w,
    get_rows_loop self (words1 ++ words2) row_ids w
    = bind (get_rows_loop self words1 row_ids)
           (fun ids => get_rows_loop self words2 ids) w.
Proof.
  induction words1 as [|word rest IH]; intros row_ids w; cbn [app get_rows_loop].
  - reflexivity.
  - rewrite bind_assoc.
    destruct (read_dict (row2id self) w) as [[d|e] w1] eqn:Hd.
    + rewrite !(bind_Ok _ _ _ _ _ Hd).
      destruct (d !! word); [apply IH | reflexivity].
    + now rewrite !(bind_Raise _ _ _ _ _ Hd).
Qed.

(** The indices a loop returns are appended to those it starts from, and
    are the same whatever it starts from. *)
Lemma get_rows_loop_acc (self : Space) (words : list string) :
  forall row_ids w ids w',
    get_rows_loop self words row_ids w = (Ok ids, w') ->
    exists ids', ids = row_ids ++ ids'
      /\ forall row_ids2,
           get_rows_loop self words row_ids2 w = (Ok (row_ids2 ++ ids'), w').
Proof.
  induction words as [|word rest IH]; intros row_ids w ids w' Hloop;
    cbn [get_rows_loop] in *.
  - injection Hloop as <- <-. exists []. split; [now rewrite app_nil_r|].
    intros row_ids2. now rewrite app_nil_r.
  - apply bind_Ok_inv in Hloop as (d & w1 & Hd & Hloop).
    destruct (d !! word) as [i|] eqn:Hi; [|discriminate].
    destruct (IH _ _ _ _ Hloop) as (ids' & -> & Hacc).
    exists (i :: ids'). split; [now rewrite <- app_assoc|].
    intros row_ids2. rewrite (bind_Ok _ _ _ _ _ Hd), Hi.
    rewrite Hacc. now rewrite <- app_assoc.
Qed.

Lemma get_rows_Ok_inv (self : Space) words w (m : Matrix) w' :
  get_rows self words w = (Ok m, w') ->
  w' = w
  /\ exists ids, get_rows_loop self words [] w = (Ok ids, w)
       /\ lookup_all (cells (cooccurrence_matrix self)) ids = Ok (cells m)
       /\ ncols m = ncols (cooccurrence_matrix self).
Proof.
  intros Hget. pose proof (read_only_get_rows self words w) as Hro.
  rewrite Hget in Hro. cbn in Hro. subst w'. split; [reflexivity|].
  unfold get_rows in Hget.
  apply bind_Ok_inv in Hget as (ids & w1 & Hloop & Hrows).
  pose proof (read_only_get_rows_loop self words [] w) as Hro.
  rewrite Hloop in Hro. cbn in Hro. subst w1.
  exists ids. split; [exact Hloop|].
  unfold lift, mat_getrows in Hrows.
  destruct (lookup_all (cells (cooccurrence_matrix self)) ids) as [rows|];
    cbn in Hrows; [|discriminate].
  injection Hrows as <-. auto.
Qed.

(** X7. [get_rows] and concatenated requests, on any Space: the rows of
    [words1 ++ words2] are the rows of [words1] stacked on the rows of
    [words2] when both requests return, a word missing from [words1] is
    reported for the concatenation as well, and the empty request returns
    the matrix without rows, whatever the Space holds. *)
Theorem get_rows_of_concatenation (self : Space) (words1 words2 : list string)
    (w : world) :
  (forall m1 m2 w1 w2,
     get_rows self words1 w = (Ok m1, w1) ->
     get_rows self words2 w = (Ok m2, w2) ->
     get_rows self (words1 ++ words2) w = (mat_vstack m1 m2, w))
  /\ (forall word w1,
        get_rows self words1 w = (Raise (KeyNotFound word), w1) ->
        get_rows self (words1 ++ words2) w = (Raise (KeyNotFound word), w))
  /\ get_rows self [] w
     = (Ok (mkMatrix (ncols (cooccurrence_matrix self)) []), w).
Proof.
  split; [|split].
  - intros m1 m2 w1 w2 H1 H2.
    apply get_rows_Ok_inv in H1 as (_ & ids1 & Hloop1 & Hrows1 & Hc1).
    apply get_rows_Ok_inv in H2 as (_ & ids2 & Hloop2 & Hrows2 & Hc2).
    destruct (get_rows_loop_acc _ _ _ _ _ _ Hloop2) as (ids2' & -> & Hacc).
    cbn [app] in Hrows2.
    assert (Hloop : get_rows_loop self (words1 ++ words2) [] w
                    = (Ok (ids1 ++ ids2'), w))
      by (rewrite get_rows_loop_app, (bind_Ok _ _ _ _ _ Hloop1); apply Hacc).
    unfold get_rows. rewrite (bind_Ok _ _ _ _ _ Hloop).
    unfold lift, mat_getrows, mat_vstack.
    rewrite (lookup_all_app _ _ _ _ _ Hrows1 Hrows2). cbn.
    rewrite Hc1, Hc2, Nat.eqb_refl. reflexivity.
  - intros word w1 H1.
    pose proof (read_only_get_rows self words1 w) as Hro.
    rewrite H1 in Hro. cbn in Hro. subst w1.
    unfold get_rows in *.
    destruct (get_rows_loop self words1 [] w) as [[ids|e] w1] eqn:Hloop.
    + rewrite (bind_Ok _ _ _ _ _ Hloop) in H1. unfold lift, mat_getrows in H1.
      exfalso. injection H1 as H1 _.
      destruct (lookup_all_result (cells (cooccurrence_matrix self)) ids)
        as [[rows Hrows] | Hrows]; rewrite Hrows in H1; discriminate.
    + rewrite (bind_Raise _ _ _ _ _ Hloop) in H1. injection H1 as -> ->.
      assert (Hloop' : get_rows_loop self (words1 ++ words2) [] w
                       = (Raise (KeyNotFound word), w))
        by (rewrite get_rows_loop_app; apply bind_Raise; exact Hloop).
      now rewrite (bind_Raise _ _ _ _ _ Hloop').
  - reflexivity.
Qed.

(** ** Shorter and longer neighbour lists *)

Lemma neighbours_loop_app sorted_perm l (sims : Matrix) (counts1 counts2 : list nat) :
  forall result w,
    neighbours_loop sorted_perm l sims (counts1 ++ counts2) result w
    = bind (neighbours_loop sorted_perm l sims counts1 result)
           (fun r => neighbours_loop sorted_perm l sims counts2 r) w.
Proof.
  induction counts1 as [|count rest IH]; intros result w;
    cbn [app neighbours_loop]; [reflexivity|].
  destruct (sorted_perm !! count) as [i|]; [|reflexivity].
  rewrite bind_assoc.
  destruct (list_getitem l i w) as [[target|e] w1] eqn:Ht.
  - rewrite !(bind_Ok _ _ _ _ _ Ht). rewrite bind_assoc.
    destruct (lift (mat_getcell sims i 0) w1) as [[score|e] w2] eqn:Hs.
    + rewrite !(bind_Ok _ _ _ _ _ Hs). apply IH.
    + now rewrite !(bind_Raise _ _ _ _ _ Hs).
  - now rewrite !(bind_Raise _ _ _ _ _ Ht).
Qed.

(** A loop that returns has appended one neighbour per count. *)
Lemma neighbours_loop_length sorted_perm l (sims : Matrix) (counts : list nat) :
  forall result w r w',
    neighbours_loop sorted_perm l sims counts result w = (Ok r, w') ->
    exists r', r = result ++ r' /\ length r' = length counts.
Proof.
  induction counts as [|count rest IH]; intros result w r w' Hloop;
    cbn [neighbours_loop] in Hloop.
  - injection Hloop as <- <-. exists []. now rewrite app_nil_r.
  - destruct (sorted_perm !! count) as [i|]; [|discriminate].
    apply bind_Ok_inv in Hloop as (target & w1 & _ & Hloop).
    apply bind_Ok_inv in Hloop as (score & w2 & _ & Hloop).
    destruct (IH _ _ _ _ Hloop) as (r' & -> & Hlen).
    exists ((target, score) :: r'). rewrite <- app_assoc. cbn. auto.
Qed.

Lemma neighbours_loop_prefix sorted_perm l (sims : Matrix) (n n' : nat) w r' w' :
  n <= n' ->
  neighbours_loop sorted_perm l sims (seq 0 n') [] w = (Ok r', w') ->
  neighbours_loop sorted_perm l sims (seq 0 n) [] w = (Ok (take n r'), w').
Proof.
  intros Hle Hloop.
  pose proof (read_only_neighbours_loop sorted_perm l sims (seq 0 n') [] w) as Hro.
  rewrite Hloop in Hro. cbn in Hro. subst w'.
  replace n' with (n + (n' - n)) in Hloop by lia.
  rewrite seq_app, neighbours_loop_app in Hloop.
  apply bind_Ok_inv in Hloop as (r1 & w1 & Hloop1 & Hloop2).
  pose proof (read_only_neighbours_loop sorted_perm l sims (seq 0 n) [] w) as Hro.
  rewrite Hloop1 in Hro. cbn in Hro. subst w1.
  destruct (neighbours_loop_length _ _ _ _ _ _ _ _ Hloop1) as (r1' & -> & Hlen1).
  destruct (neighbours_loop_length _ _ _ _ _ _ _ _ Hloop2) as (r2' & -> & Hlen2).
  cbn [app] in *. rewrite length_seq in Hlen1.
  rewrite take_app_length' by (symmetry; exact Hlen1). exact Hloop1.
Qed.

(** X8. The neighbour lists of one query are prefixes of each other: on any
    Space, if [get_neighbours] returns for [k'] neighbours, it returns for
    every [k <= k'] the first [k] entries of that list (none for a [k] that
    is not positive). *)
Theorem get_neighbours_prefix (self : Space) (word : string) (k k' : Z)
    (similarity : value) (neighbour_space : option Space)
    (w w' : world) (result' : list (string * R)) :
  (k <= k')%Z ->
  get_neighbours self word k' similarity neighbour_space w = (Ok result', w') ->
  get_neighbours self word k similarity neighbour_space w
  = (Ok (take (Z.to_nat k) result'), w').
Proof.
  intros Hle Hget. unfold get_neighbours in *.
  destruct (assert_is_instance as_Similarity similarity w) as [[sim|e] w1] eqn:Hi;
    [| rewrite (bind_Raise _ _ _ _ _ Hi) in Hget; discriminate ].
  rewrite (bind_Ok _ _ _ _ _ Hi) in Hget. rewrite (bind_Ok _ _ _ _ _ Hi).
  destruct (get_row self word w1) as [[vector|e] w2] eqn:Hrow;
    [| rewrite (bind_Raise _ _ _ _ _ Hrow) in Hget; discriminate ].
  rewrite (bind_Ok _ _ _ _ _ Hrow) in Hget. rewrite (bind_Ok _ _ _ _ _ Hrow).
  destruct vector as [vector|].
  2: { injection Hget as <- <-. now rewrite take_nil. }
  match type of Hget with
  | bind ?m _ ?w0 = _ =>
      destruct (m w0) as [[[l sims]|e] w3] eqn:Hpair;
      [| rewrite (bind_Raise _ _ _ _ _ Hpair) in Hget; discriminate ]
  end.
  rewrite (bind_Ok _ _ _ _ _ Hpair) in Hget. rewrite (bind_Ok _ _ _ _ _ Hpair).
  destruct (py_len l w3) as [[n|e] w4] eqn:Hlen;
    [| rewrite (bind_Raise _ _ _ _ _ Hlen) in Hget; discriminate ].
  rewrite (bind_Ok _ _ _ _ _ Hlen) in Hget. rewrite (bind_Ok _ _ _ _ _ Hlen).
  unfold range in *.
  destruct (neighbours_loop_length _ _ _ _ _ _ _ _ Hget) as (r & Hr & Hrlen).
  cbn [app] in Hr. subst r. rewrite length_seq in Hrlen.
  assert (Hn : Z.to_nat (Z.min k (Z.of_nat n)) <= Z.to_nat (Z.min k' (Z.of_nat n)))
    by lia.
  rewrite (neighbours_loop_prefix _ _ _ _ _ _ _ _ Hn Hget).
  do 2 f_equal.
  destruct (decide (Z.to_nat k <= n)) as [Hk|Hk].
  - f_equal. lia.
  - rewrite !take_ge by lia. reflexivity.
Qed.

(** ** Rows of a stacked Space *)

Lemma vstack_disjoint_Ok (w : world) (s1 s2 : Space) (d1 d2 : SpaceData) :
  load w s1 = Some d1 -> valid w s1 = true ->
  load w s2 = Some d2 -> valid w s2 = true ->
  ncols (cooccurrence_matrix s1) = ncols (cooccurrence_matrix s2) ->
  sd_id2column d1 = sd_id2column d2 ->
  Forall (fun x => sd_row2id d1 !! x = None) (sd_id2row d2) ->
  exists (s' : Space) (w' : world) rd',
    vstack s1 s2 w = (Ok s', w')
    /\ load w' s'
       = Some (mkSpaceData (sd_id2row d1 ++ sd_id2row d2) rd'
                           (sd_id2column d1) (sd_column2id d1) [])
    /\ valid w' s' = true
    /\ cooccurrence_matrix s'
       = mkMatrix (ncols (cooccurrence_matrix s1))
                  (cells (cooccurrence_matrix s1) ++ cells (cooccurrence_matrix s2)).
Proof.
  intros Hload1 Hvalid1 Hload2 Hvalid2 Hcols Hsame Hnew.
  destruct (valid_inv _ _ Hvalid1) as (d' & Hload' & Hmr1 & Hmc1 & Hnr1 & Hnc1).
  rewrite Hload1 in Hload'. injection Hload' as <-.
  destruct (valid_inv _ _ Hvalid2) as (d' & Hload' & Hmr2 & Hmc2 & Hnr2 & Hnc2).
  rewrite Hload2 in Hload'. injection Hload' as <-.
  destruct (load_inv _ _ _ Hload1) as (Hr1 & Hrd1 & Hc1 & Hcd1 & Hops1).
  destruct (load_inv _ _ _ Hload2) as (Hr2 & Hrd2 & Hc2 & Hcd2 & Hops2).
  unfold vstack. cbn [shape snd]. rewrite <- Hcols, Nat.eqb_refl. cbn [negb].
  unfold operations, id2row, row2id, id2column, column2id.
  step_read read_list_Ok. step_read read_list_Ok.
  rewrite bool_decide_eq_true_2 by exact Hsame. cbn [negb].
  step_read read_dict_Ok. step_alloc.
  erewrite bind_Ok;
    [| eapply add_items_to_dict_Ok;
       [ solve_lookup | solve_lookup
       | eapply dict_match_list_NoDup; exact Hmr2 | exact Hnew ] ].
  cbn [heap warnings].
  step_read read_list_Ok. step_read read_list_Ok. step_alloc.
  unfold lift at 1, mat_vstack. rewrite <- Hcols, Nat.eqb_refl.
  unfold bind at 1.
  step_read read_list_Ok. step_alloc.
  step_read read_dict_Ok. step_alloc.
  step_alloc.
  assert (Hmatch : dict_match_list
            (insert_items (sd_row2id d1) (size (sd_row2id d1)) 0 (sd_id2row d2))
            (sd_id2row d1 ++ sd_id2row d2) = true).
  { apply insert_items_match; trivial.
    - apply dict_match_list_spec in Hmr1 as [-> _]. lia.
    - eapply dict_match_list_NoDup; exact Hmr2. }
  assert (Hlen : nrows (mkMatrix (ncols (cooccurrence_matrix s1))
                          (cells (cooccurrence_matrix s1) ++ cells (cooccurrence_matrix s2)))
                 = length (sd_id2row d1 ++ sd_id2row d2)).
  { unfold nrows in *. cbn. rewrite !length_app. lia. }
  erewrite Space_init_Ok; [| solve_lookup .. | | | | ];
    [| exact Hmatch | exact Hmc1 | exact Hlen | cbn [ncols]; congruence ].
  do 3 eexists. split; [reflexivity|].
  match goal with
  | |- load ?w' ?s' = _ /\ _ =>
      assert (Hnew' : load w' s'
        = Some (mkSpaceData (sd_id2row d1 ++ sd_id2row d2)
                  (insert_items (sd_row2id d1) (size (sd_row2id d1)) 0 (sd_id2row d2))
                  (sd_id2column d1) (sd_column2id d1) []))
  end.
  { apply load_intro; cbn [_id2row _row2id _id2column _column2id _operations];
      solve_lookup. }
  split; [exact Hnew'|]. split; [|reflexivity].
  unfold valid. rewrite Hnew'. unfold valid_data.
  cbn [cooccurrence_matrix _cooccurrence_matrix sd_id2row sd_row2id
       sd_id2column sd_column2id].
  rewrite Hmatch, Hmc1. rewrite Hlen. cbn [ncols].
  rewrite Hnc1, !Nat.eqb_refl. reflexivity.
Qed.

(** When [vstack] returns on valid Spaces, the columns agreed and no target
    of the second Space was a target of the first. *)
Lemma vstack_Ok_conditions (w w' : world) (s1 s2 s' : Space) (d1 d2 : SpaceData) :
  load w s1 = Some d1 -> load w s2 = Some d2 ->
  vstack s1 s2 w = (Ok s', w') ->
  ncols (cooccurrence_matrix s1) = ncols (cooccurrence_matrix s2)
  /\ sd_id2column d1 = sd_id2column d2
  /\ Forall (fun x => sd_row2id d1 !! x = None) (sd_id2row d2).
Proof.
  intros Hload1 Hload2 Hv.
  destruct (load_inv _ _ _ Hload1) as (Hr1 & Hrd1 & Hc1 & Hcd1 & Hops1).
  destruct (load_inv _ _ _ Hload2) as (Hr2 & Hrd2 & Hc2 & Hcd2 & Hops2).
  unfold vstack in Hv. cbn [shape snd] in Hv.
  destruct (Nat.eqb _ _) eqn:Hcols in Hv; cbn [negb] in Hv; [|discriminate].
  apply Nat.eqb_eq in Hcols.
  unfold operations, id2row, row2id, id2column, column2id in Hv.
  rewrite (bind_Ok _ _ _ _ _ (read_list_Ok _ _ _ Hc1)) in Hv.
  rewrite (bind_Ok _ _ _ _ _ (read_list_Ok _ _ _ Hc2)) in Hv.
  destruct (bool_decide _) eqn:Hsame in Hv; cbn [negb] in Hv; [|discriminate].
  apply bool_decide_eq_true in Hsame.
  repeat split; trivial.
  rewrite (bind_Ok _ _ _ _ _ (read_dict_Ok _ _ _ Hrd1)) in Hv.
  destruct (alloc_fresh (ODict (sd_row2id d1)) w) as (l & Hfresh & Halloc).
  rewrite (bind_Ok _ _ _ _ _ Halloc) in Hv.
  destruct (Forall_Exists_dec (fun x => sd_row2id d1 !! x = None)
              (fun x => is_Some (sd_row2id d1 !! x))
              (fun x => match sd_row2id d1 !! x as o
                              return {o = None} + {is_Some o} with
                        | Some i => right (mk_is_Some _ _ eq_refl)
                        | None => left eq_refl
                        end)
              (sd_id2row d2)) as [Hnew | Hdup]; [exact Hnew|].
  exfalso.
  match type of Hv with
  | bind ?m ?k ?w0 = _ =>
      assert (Hraise : (m w0).1 = Raise DuplicateKey)
  end.
  { eapply add_items_to_dict_duplicate; [solve_lookup | solve_lookup | exact Hdup]. }
  match type of Hv with
  | bind ?m ?k ?w0 = _ =>
      pose proof (bind_Raise_fst m k w0 _ Hraise) as Hraise'
  end.
  rewrite Hv in Hraise'. discriminate Hraise'.
Qed.

(** X9. Looking a word up in a stacked Space. When [vstack] returns on two
    valid Spaces, [get_row] on the result returns, for a target of the first
    Space, the row vector the first Space returns, for a target of the
    second Space, the row vector the second Space returns, and [None] for a
    word that is a target of neither. *)
Theorem get_row_of_vstack (w w' : world) (s1 s2 s' : Space) (d1 d2 : SpaceData)
    (word : string) :
  load w s1 = Some d1 -> valid w s1 = true ->
  load w s2 = Some d2 -> valid w s2 = true ->
  vstack s1 s2 w = (Ok s', w') ->
  get_row s' word w'
  = (match (get_row s1 word w).1 with
     | Ok (Some v) => Ok (Some v)
     | _ => (get_row s2 word w).1
     end, w').
Proof.
  intros Hload1 Hvalid1 Hload2 Hvalid2 Hv.
  destruct (vstack_Ok_conditions _ _ _ _ _ _ _ Hload1 Hload2 Hv)
    as (Hcols & Hsame & Hnew).
  destruct (vstack_disjoint_Ok w s1 s2 d1 d2) as (s0 & w0 & rd' & Hv0 & Hload' & Hvalid' & Hmat);
    trivial.
  rewrite Hv in Hv0. injection Hv0 as <- <-.
  destruct (valid_inv _ _ Hvalid') as (d' & Hl & Hmr' & _ & _ & _).
  rewrite Hload' in Hl. injection Hl as <-. cbn in Hmr'.
  destruct (valid_inv _ _ Hvalid1) as (d' & Hl & Hmr1 & _ & Hnr1 & _).
  rewrite Hload1 in Hl. injection Hl as <-.
  destruct (valid_inv _ _ Hvalid2) as (d' & Hl & Hmr2 & _ & Hnr2 & _).
  rewrite Hload2 in Hl. injection Hl as <-.
  pose proof (proj2 (proj1 (dict_match_list_spec _ _) Hmr')) as Hall'.
  unfold nrows in Hnr1, Hnr2.
  destruct (get_row_cases w s1 d1 word Hload1 Hvalid1)
    as [[Ha1 Hg1] | (i & r & Hi & Hri & Hci & Hg1)]; rewrite Hg1; cbn [fst].
  - destruct (get_row_cases w s2 d2 word Hload2 Hvalid2)
      as [[Ha2 Hg2] | (j & r & Hj & Hrj & Hcj & Hg2)]; rewrite Hg2; cbn [fst].
    + eapply get_row_absent; [exact Hload'|]. cbn.
      destruct (rd' !! word) as [k|] eqn:Hk; [|reflexivity]. exfalso.
      pose proof (dict_match_list_inv _ _ _ _ Hmr' Hk) as Hin.
      apply lookup_app_Some in Hin as [Hin | [_ Hin]].
      * apply dict_match_list_spec in Hmr1 as [_ Hall1].
        rewrite (Hall1 _ _ Hin) in Ha1. discriminate.
      * apply dict_match_list_spec in Hmr2 as [_ Hall2].
        rewrite (Hall2 _ _ Hin) in Ha2. discriminate.
    + assert (Hk : rd' !! word = Some (length (sd_id2row d1) + j)).
      { apply Hall'. rewrite lookup_app_r by lia.
        now replace (length (sd_id2row d1) + j - length (sd_id2row d1)) with j by lia. }
      rewrite (get_row_present w' s' _ word _ r Hload' Hk).
      * rewrite Hmat. cbn [ncols]. now rewrite Hcols.
      * rewrite Hmat. cbn [cells]. rewrite lookup_app_r by lia.
        now replace (length (sd_id2row d1) + j - length (cells (cooccurrence_matrix s1)))
          with j by lia.
  - assert (Hk : rd' !! word = Some i).
    { apply Hall'. now apply lookup_app_l_Some. }
    rewrite (get_row_present w' s' _ word _ r Hload' Hk).
    + rewrite Hmat. reflexivity.
    + rewrite Hmat. cbn [cells]. now apply lookup_app_l_Some.
Qed.

(** ** What [apply] returns *)

Ltac step_read_in H lem :=
  erewrite bind_Ok in H; [| apply lem; solve_lookup ].

Ltac step_alloc_in H :=
  match type of H with
  | context [bind (alloc ?o) _ ?w] =>
      let l := fresh "l" in
      let Hf := fresh "Hfresh" in
      let Ha := fresh "Halloc" in
      destruct (alloc_fresh o w) as (l & Hf & Ha);
      cbn [heap warnings] in Hf, Ha; split_fresh Hf;
      rewrite (bind_Ok _ _ _ _ _ Ha) in H; clear Ha
  end.

Ltac simpl_lookup_in H :=
  cbn [heap warnings] in H;
  repeat first [ rewrite lookup_insert_eq in H
               | rewrite lookup_insert_ne in H by congruence ].

(** What the returned Space holds at a container that was built before the
    constructor was called. *)
Ltac held_in Hsub Hin l :=
  match type of Hsub with
  | ?h ⊆ _ =>
      match type of Hin with
      | _ !! l = Some ?o' =>
          let E := fresh "E" in
          let o := fresh "o" in
          destruct (h !! l) as [o|] eqn:E;
          [ pose proof (lookup_weaken _ _ _ _ E Hsub) as E';
            rewrite Hin in E'; injection E' as E'; subst o;
            simpl_lookup_in E
          | exfalso; simpl_lookup_in E; discriminate E ]
      end
  end.

Lemma apply_Ok_inv (w w' : world) (self s' : Space) (d : SpaceData)
    (t : Transformation) :
  load w self = Some d ->
  apply self (VTransformation t) w = (Ok s', w') ->
  exists cols' cd',
    load w' s'
    = Some (mkSpaceData (sd_id2row d) (sd_row2id d) cols' cd'
                        (sd_operations d ++ [create_operation t]))
    /\ valid w' s' = true
    /\ op_apply (create_operation t) (cooccurrence_matrix self)
       = Ok (cooccurrence_matrix s')
    /\ match t with
       | Weighting _ => cols' = sd_id2column d /\ cd' = sd_column2id d
       | DimensionalityReduction _ => cols' = [] /\ cd' = ∅
       | FeatureSelection _ _ => False
       end.
Proof.
  intros Hload Happly.
  destruct (load_inv _ _ _ Hload) as (Hr & Hrd & Hc & Hcd & Hops).
  unfold apply in Happly. cbn [as_Transformation assert_is_instance] in Happly.
  unfold bind at 1 in Happly. cbn [ret] in Happly.
  destruct (op_apply (create_operation t) (cooccurrence_matrix self))
    as [new_matrix|e] eqn:Hop;
    [| unfold bind at 1, lift at 1 in Happly; discriminate Happly ].
  unfold bind at 1, lift at 1 in Happly.
  unfold operations, id2row, row2id, id2column, column2id in Happly.
  step_read_in Happly read_ops_Ok. step_alloc_in Happly.
  erewrite bind_Ok in Happly; [| apply ops_append_Ok; solve_lookup ].
  step_read_in Happly read_list_Ok. step_alloc_in Happly.
  step_read_in Happly read_dict_Ok. step_alloc_in Happly.
  destruct t as [op|op|op selected_columns]; cbn [create_operation] in *.
  - unfold bind at 1 in Happly.
    step_read_in Happly read_list_Ok. step_alloc_in Happly.
    step_read_in Happly read_dict_Ok. step_alloc_in Happly.
    cbn [ret] in Happly.
    apply Space_init_inv in Happly; [| eexists; solve_lookup ].
    destruct Happly as (rows & rd & cols & cd & ops & Hload' & Hvalid' & Hsub
                        & _ & Hr' & Hc' & Hm & Hlr & Hlc & Hlo & Hlrd & Hlcd).
    specialize (Hlrd _ eq_refl). specialize (Hlcd _ eq_refl).
    destruct (load_inv _ _ _ Hload') as (_ & Hrd' & _ & Hcd' & Hops').
    rewrite Hlrd in Hrd'. rewrite Hlcd in Hcd'. rewrite Hlo in Hops'.
    cbn [heap sd_row2id sd_column2id sd_operations] in Hsub, Hrd', Hcd', Hops'.
    simpl_lookup_in Hr'. simpl_lookup_in Hc'.
    injection Hr' as <-. injection Hc' as <-.
    held_in Hsub Hrd' l1. held_in Hsub Hcd' l3. held_in Hsub Hops' l.
    injection E as <-. injection E0 as <-. injection E1 as <-.
    exists (sd_id2column d), (sd_column2id d). rewrite <- Hm. auto.
  - unfold bind at 1 in Happly.
    step_alloc_in Happly. step_alloc_in Happly.
    cbn [ret] in Happly.
    apply Space_init_inv in Happly; [| eexists; solve_lookup ].
    destruct Happly as (rows & rd & cols & cd & ops & Hload' & Hvalid' & Hsub
                        & _ & Hr' & Hc' & Hm & Hlr & Hlc & Hlo & Hlrd & Hlcd).
    specialize (Hlrd _ eq_refl). specialize (Hlcd _ eq_refl).
    destruct (load_inv _ _ _ Hload') as (_ & Hrd' & _ & Hcd' & Hops').
    rewrite Hlrd in Hrd'. rewrite Hlcd in Hcd'. rewrite Hlo in Hops'.
    cbn [heap sd_row2id sd_column2id sd_operations] in Hsub, Hrd', Hcd', Hops'.
    simpl_lookup_in Hr'. simpl_lookup_in Hc'.
    injection Hr' as <-. injection Hc' as <-.
    held_in Hsub Hrd' l1. held_in Hsub Hcd' l3. held_in Hsub Hops' l.
    injection E as <-. injection E0 as <-. injection E1 as <-.
    exists [], ∅. rewrite <- Hm. auto.
  - exfalso. unfold bind at 1 2 in Happly. unfold list_getitem_by_list in Happly.
    step_read_in Happly read_list_Ok. discriminate Happly.
Qed.


(** X11. Two transformations in a row. When [apply] returns on a Space and
    again on its result, the second result has the original's [id2row] and
    [row2id], its operations are the original's followed by the two new
    operations in the order of application, its matrix is the second
    operation applied to what the first made of the original matrix, and
    both earlier Spaces still read as they did. *)
Theorem apply_twice_logs_in_order (w w1 w2 : world) (self s1 s2 : Space)
    (d : SpaceData) (transformation1 transformation2 : value) :
  load w self = Some d ->
  apply self transformation1 w = (Ok s1, w1) ->
  apply s1 transformation2 w1 = (Ok s2, w2) ->
  exists t1 t2 d1 d2,
    transformation1 = VTransformation t1
    /\ transformation2 = VTransformation t2
    /\ load w1 s1 = Some d1 /\ load w2 s1 = Some d1 /\ load w2 self = Some d
    /\ load w2 s2 = Some d2
    /\ sd_id2row d2 = sd_id2row d /\ sd_row2id d2 = sd_row2id d
    /\ sd_operations d2
       = sd_operations d ++ [create_operation t1; create_operation t2]
    /\ (let? m1 := op_apply (create_operation t1) (cooccurrence_matrix self) in
        op_apply (create_operation t2) m1)
       = Ok (cooccurrence_matrix s2).
Proof.
  intros Hload Happly1 Happly2.
  assert (Ht1 : exists t, transformation1 = VTransformation t).
  { destruct transformation1; try discriminate Happly1. eauto. }
  destruct Ht1 as [t1 ->].
  assert (Ht2 : exists t, transformation2 = VTransformation t).
  { destruct transformation2; try discriminate Happly2. eauto. }
  destruct Ht2 as [t2 ->].
  destruct (apply_Ok_inv _ _ _ _ _ _ Hload Happly1)
    as (cols1 & cd1 & Hload1 & _ & Hop1 & _).
  destruct (apply_Ok_inv _ _ _ _ _ _ Hload1 Happly2)
    as (cols2 & cd2 & Hload2 & _ & Hop2 & _).
  assert (Hsub1 : heap w ⊆ heap w1).
  { destruct (keeps_apply (heap w) self (VTransformation t1) w) as (Hsub & _);
      [reflexivity|]. now rewrite Happly1 in Hsub. }
  assert (Hsub2 : heap w1 ⊆ heap w2).
  { destruct (keeps_apply (heap w1) s1 (VTransformation t2) w1) as (Hsub & _);
      [reflexivity|]. now rewrite Happly2 in Hsub. }
  cbn [sd_id2row sd_row2id sd_operations] in Hload2.
  exists t1, t2. do 2 eexists.
  split; [reflexivity|]. split; [reflexivity|].
  split; [exact Hload1|].
  split; [eapply load_weaken; eauto|].
  split; [eapply load_weaken; [|exact Hload]; etrans; eauto|].
  split; [exact Hload2|]. cbn.
  split; [reflexivity|]. split; [reflexivity|].
  split; [now rewrite <- app_assoc|].
  rewrite Hop1. exact Hop2.
Qed.

(** ** The life of an additive model *)

(** X12. A model built from [A] and [B] has no learner, whatever else the
    keyword arguments hold (a supplied learner is dropped): [_train] raises
    an AttributeError on it and leaves it as it was. *)
Theorem direct_model_cannot_be_trained (ridge : RegressionLearner)
    (kwargs : gmap string value) (mat_a mat_b : Matrix)
    (arg1_mat arg2_mat phrase_mat : Matrix) :
  kwargs !! "A" = Some (VMatrix mat_a) ->
  kwargs !! "B" = Some (VMatrix mat_b) ->
  exists self,
    FullAdditive_init ridge kwargs = Ok self
    /\ _regression_learner self = None
    /\ _train arg1_mat arg2_mat phrase_mat self
       = (Raise (AttributeError
                   "'FullAdditive' object has no attribute '_regression_learner'"),
          self).
Proof.
  intros HA HB. eexists.
  split; [exact (init_direct_path ridge kwargs mat_a mat_b HA HB)|].
  split; reflexivity.
Qed.

(** X13. A model built on the learner path has no coefficient matrices
    until it is trained: [_compose] raises an AttributeError on it, with or
    without an intercept, and leaves it as it was. *)
Theorem untrained_model_cannot_compose (ridge : RegressionLearner)
    (kwargs : gmap string value) (self : FullAdditive)
    (arg1_mat arg2_mat : Matrix) :
  kwargs !! "A" = None \/ kwargs !! "B" = None ->
  FullAdditive_init ridge kwargs = Ok self ->
  _compose arg1_mat arg2_mat self
  = (Raise (AttributeError "'FullAdditive' object has no attribute '_mat_a_t'"),
     self).
Proof.
  intros Hmissing Hinit.
  assert (Hnone : _mat_a_t self = None).
  { unfold FullAdditive_init in Hinit.
    destruct (kwargs !! "A") as [a|], (kwargs !! "B") as [b|];
      try (destruct Hmissing; discriminate).
    all: destruct (learner_method _ _); cbn in Hinit; [|discriminate];
      injection Hinit as <-; reflexivity. }
  unfold _compose, bind, get_state. cbn.
  destruct (_has_intercept self); rewrite Hnone; reflexivity.
Qed.

(** X14. A training that fails is not undone: when the stacking of the two
    argument matrices or the learner's [train] raises, [_train] raises the
    same exception and the model keeps its learner and its coefficient
    matrices, but [has_intercept] is already the learner's. *)
Theorem failed_training_keeps_the_new_intercept (self : FullAdditive)
    (l : RegressionLearner) (arg1_mat arg2_mat phrase_mat : Matrix) (e : exn) :
  _regression_learner self = Some (VLearner l) ->
  (let? design := mat_hstack arg1_mat arg2_mat in train l design phrase_mat)
  = Raise e ->
  _train arg1_mat arg2_mat phrase_mat self
  = (Raise e,
     mkFullAdditive (Some (VLearner l)) (has_intercept l)
                    (_mat_a_t self) (_mat_b_t self)).
Proof.
  intros Hl Hfail.
  unfold _train, bind, get_state, put_state, getattr, ret, lift. cbn.
  rewrite Hl. cbn.
  destruct (mat_hstack arg1_mat arg2_mat) as [design|e']; cbn in Hfail |- *.
  - rewrite Hfail. reflexivity.
  - injection Hfail as <-. reflexivity.
Qed.

(** X15. [set_regression_learner] accepts learners only, and a training
    after it forgets the model it started from: a non-learner raises a
    TypeMismatch error and changes nothing; after a learner is set, a
    successful [_train] leaves the same model, the learner with its
    [has_intercept] and its two coefficient blocks, whatever the model held
    before. *)
Theorem set_learner_then_train (self : FullAdditive) (regression_learner : value)
    (arg1_mat arg2_mat phrase_mat design result : Matrix) :
  (as_RegressionLearner regression_learner = None ->
     set_regression_learner regression_learner self = (Raise TypeMismatch, self))
  /\
  (forall l,
     regression_learner = VLearner l ->
     mat_hstack arg1_mat arg2_mat = Ok design ->
     train l design phrase_mat = Ok result ->
     (let* _ := set_regression_learner regression_learner in
      _train arg1_mat arg2_mat phrase_mat) self
     = (Ok tt,
        mkFullAdditive (Some (VLearner l)) (has_intercept l)
          (Some (mkMatrix (ncols result) (take (ncols arg1_mat) (cells result))))
          (Some (mkMatrix (ncols result) (drop (ncols arg1_mat) (cells result)))))).
Proof.
  split.
  - intros Hnot. unfold set_regression_learner, assert_is_instance.
    rewrite Hnot. reflexivity.
  - intros l -> Hstack Htrain.
    unfold set_regression_learner, _train, bind, get_state, put_state, getattr,
      ret, lift. cbn.
    rewrite Hstack, Htrain. cbn. rewrite Nat.sub_0_r. reflexivity.
Qed.

(** ** Training followed by composition *)

Section Prediction.

Context {SL : ScalarLaws R}.








End Prediction.

End Properties.

(** * The sample objects *)

Module SampleFacts.

Import Sample.

Ltac by_compute := vm_compute; reflexivity.

Lemma load_animals : load zoo_world animals_space = Some animals_data.
Proof. vm_compute. reflexivity. Qed.

Lemma load_birds : load zoo_world birds_space = Some birds_data.
Proof. vm_compute. reflexivity. Qed.

Lemma valid_animals : valid zoo_world animals_space = true.
Proof. vm_compute. reflexivity. Qed.

Lemma valid_birds : valid zoo_world birds_space = true.
Proof. vm_compute. reflexivity. Qed.

(** The doubling weighting applied to the animals. *)
Lemma apply_weighting_keeps_mappings_witness :
  load zoo_world animals_space = Some animals_data
  /\ valid zoo_world animals_space = true
  /\ exists s' w',
       apply animals_space (VTransformation (Weighting doubling)) zoo_world
       = (Ok s', w')
       /\ load w' s'
          = Some (mkSpaceData (sd_id2row animals_data) (sd_row2id animals_data)
                    (sd_id2column animals_data) (sd_column2id animals_data)
                    [doubling])
       /\ load w' animals_space = Some animals_data.
Proof.
  split; [exact load_animals|]. split; [exact valid_animals|].
  destruct (apply_weighting_keeps_mappings zoo_world animals_space animals_data
              doubling (mkMatrix 2 [[2; 4]; [6; 8]; [10; 12]]%Z)
              load_animals valid_animals ltac:(by_compute) ltac:(by_compute))
    as (s' & w' & Happly & _ & Hnew & _ & _ & _ & _ & _ & _ & _ & Hold & _).
  exists s', w'. repeat split; assumption.
Defined.

(** The two nearest neighbours of the dog among the animals. *)
Lemma get_neighbours_top_k_witness :
  load zoo_world animals_space = Some animals_data
  /\ valid zoo_world animals_space = true
  /\ exists result,
       get_neighbours animals_space "dog" 2 (VSimilarity dot_similarity) None zoo_world
       = (Ok result, zoo_world)
       /\ length result = 2
       /\ scores_descending result.
Proof.
  split; [exact load_animals|]. split; [exact valid_animals|].
  destruct (get_neighbours_top_k zoo_world animals_space None dot_similarity
              animals_data animals_data "dog" 2
              load_animals valid_animals load_animals valid_animals)
    as [_ Hpresent].
  destruct Hpresent as (vector & Hrow & Hsims).
  { vm_compute. eauto. }
  assert (Hvector : vector = mkMatrix 2 [[3; 4]]%Z).
  { vm_compute in Hrow. now injection Hrow as <-. }
  subst vector.
  destruct (Hsims (mkMatrix 1 [[11]; [25]; [39]]%Z) ltac:(by_compute) ltac:(by_compute))
    as (result & Hget & Hlen & Hsorted & _).
  exists result. repeat split; assumption.
Defined.

(** The birds stacked under the animals. *)
Lemma vstack_rows_followed_by_rows_witness :
  load zoo_world animals_space = Some animals_data
  /\ valid zoo_world animals_space = true
  /\ load zoo_world birds_space = Some birds_data
  /\ valid zoo_world birds_space = true
  /\ exists s' w' row2id,
       vstack animals_space birds_space zoo_world = (Ok s', w')
       /\ load w' s'
          = Some (mkSpaceData ["cat"; "dog"; "eel"; "owl"; "jay"] row2id
                              ["f1"; "f2"] features_dict [])
       /\ nrows (cooccurrence_matrix s') = 5.
Proof.
  split; [exact load_animals|]. split; [exact valid_animals|].
  split; [exact load_birds|]. split; [exact valid_birds|].
  destruct (vstack_rows_followed_by_rows zoo_world animals_space birds_space
              animals_data birds_data
              load_animals valid_animals load_birds valid_birds ltac:(by_compute))
    as (_ & Hstack & _).
  destruct Hstack as (s' & w' & Hv & Hnew & _ & Hn & _).
  { by_compute. }
  { repeat constructor; by_compute. }
  exists s', w'. eexists. split; [exact Hv|]. split; [exact Hnew | exact Hn].
Defined.

(** C4 fails as stated: the columns of both operands are identical, yet a
    Space stacked on itself has no result. *)
Lemma vstack_on_itself_counterexample :
  valid zoo_world animals_space = true
  /\ ~ (exists s' w', vstack animals_space animals_space zoo_world = (Ok s', w')).
Proof.
  split; [exact valid_animals|].
  assert (Hraise : (vstack animals_space animals_space zoo_world).1 = Raise DuplicateKey)
    by (vm_compute; reflexivity).
  intros (s' & w' & Hv). rewrite Hv in Hraise. cbn [fst] in Hraise.
  discriminate Hraise.
Qed.

(** The similarity of the dog and a cow, which is not a row. *)
Lemma get_sim_soft_miss_witness :
  load zoo_world animals_space = Some animals_data
  /\ valid zoo_world animals_space = true
  /\ get_sim animals_space "dog" "cow" (VSimilarity dot_similarity) None zoo_world
     = (Ok 0%Z,
        World (heap zoo_world)
              (warnings zoo_world ++ ["Row string cow not found, returning 0.0"])).
Proof.
  split; [exact load_animals|]. split; [exact valid_animals|].
  destruct (get_sim_soft_miss zoo_world animals_space None dot_similarity
              animals_data animals_data "dog" "cow"
              load_animals valid_animals load_animals valid_animals)
    as (_ & Hmiss & _).
  apply Hmiss; [vm_compute; eauto | by_compute].
Defined.

(** The cow is not a row: [get_row] returns [None], [get_rows] raises. *)
Lemma get_row_soft_get_rows_strict_witness :
  load zoo_world animals_space = Some animals_data
  /\ get_row animals_space "cow" zoo_world = (Ok None, zoo_world)
  /\ get_rows animals_space ["eel"; "cow"; "ox"] zoo_world
     = (Raise (KeyNotFound "cow"), zoo_world).
Proof.
  split; [exact load_animals|].
  destruct (get_row_soft_get_rows_strict zoo_world animals_space animals_data
              load_animals) as (Hrow & Hrows & _).
  split.
  - apply Hrow. by_compute.
  - apply (Hrows ["eel"] "cow" ["ox"]); [|by_compute].
    repeat constructor. vm_compute. eauto.
Defined.

(** C7. On the Space of three animals over the features [f1] and [f2], the
    feature selection that keeps the column of index 0 does not yield the
    Space narrowed to [f1]: [apply] raises a TypeError. *)
Theorem apply_feature_selection_fails :
  valid zoo_world animals_space = true
  /\ (apply animals_space (VTransformation (FeatureSelection first_column [0]))
            zoo_world).1
     = Raise (TypeError "list indices must be integers, not list").
Proof.
  split; [exact valid_animals|].
  exact (apply_feature_selection_raises zoo_world animals_space animals_data
           first_column [0] (mkMatrix 1 [[1]; [3]; [5]]%Z) load_animals
           ltac:(by_compute)).
Qed.

(** Two words with two features for the first argument and one for the
    second: the three coefficient rows are split two and one. *)
Lemma train_splits_coefficients_witness :
  _train (mkMatrix 2 [[1; 0]; [0; 1]]%Z) (mkMatrix 1 [[1]; [2]]%Z)
         (mkMatrix 1 [[5]; [6]]%Z)
         (mkFullAdditive (Some (VLearner toy_learner)) false None None)
  = (Ok tt,
     mkFullAdditive (Some (VLearner toy_learner)) true
                    (Some (mkMatrix 1 [[5]; [6]]%Z))
                    (Some (mkMatrix 1 [[17]]%Z))).
Proof.
  exact (train_splits_coefficients
           (mkFullAdditive (Some (VLearner toy_learner)) false None None)
           toy_learner
           (mkMatrix 2 [[1; 0]; [0; 1]]%Z) (mkMatrix 1 [[1]; [2]]%Z)
           (mkMatrix 1 [[5]; [6]]%Z)
           (mkMatrix 3 [[1; 0; 1]; [0; 1; 2]]%Z)
           (mkMatrix 1 [[5]; [6]; [17]]%Z)
           ltac:(by_compute) ltac:(by_compute) ltac:(by_compute)).
Defined.

(** Only [A] is supplied: the model holds the default learner. *)
Lemma init_needs_both_matrices_witness :
  xorb (bool_decide (is_Some (({["A" := VMatrix animals_matrix]} : gmap string value) !! "A")))
       (bool_decide (is_Some (({["A" := VMatrix animals_matrix]} : gmap string value) !! "B")))
  = true
  /\ FullAdditive_init plain_learner {["A" := VMatrix animals_matrix]}
     = Ok (mkFullAdditive (Some (VLearner plain_learner)) false None None).
Proof.
  split; [by_compute|].
  destruct (init_needs_both_matrices plain_learner {["A" := VMatrix animals_matrix]})
    as [_ Hone].
  destruct (Hone ltac:(by_compute)) as [Hdefault _].
  apply Hdefault. by_compute.
Defined.

(** The two composition examples of the specification. *)
Example compose_without_intercept :
  (_compose (mkMatrix 2 [[1; 0]]%Z) (mkMatrix 2 [[0; 1]]%Z)
            (mkFullAdditive None false
               (Some (mkMatrix 2 [[10; 20]; [30; 40]]%Z))
               (Some (mkMatrix 2 [[1; 2]; [3; 4]]%Z)))).1
  = Ok (mkMatrix 2 [[13; 24]]%Z).
Proof. vm_compute. reflexivity. Qed.

Example compose_with_intercept :
  (_compose (mkMatrix 2 [[1; 0]]%Z) (mkMatrix 2 [[2; 3]]%Z)
            (mkFullAdditive None true
               (Some (mkMatrix 1 [[0]; [0]]%Z))
               (Some (mkMatrix 1 [[0]; [0]; [7]]%Z)))).1
  = Ok (mkMatrix 1 [[7]]%Z).
Proof. vm_compute. reflexivity. Qed.

End SampleFacts.

(** * The further properties on the sample Spaces and models *)
Module ScenarioFacts.

Import Sample Scenario.

Ltac by_compute := vm_compute; reflexivity.

Lemma animals_loaded : load zoo_world animals_space = Some animals_data.
Proof. vm_compute. reflexivity. Qed.

Lemma animals_valid : valid zoo_world animals_space = true.
Proof. vm_compute. reflexivity. Qed.

Lemma birds_loaded : load zoo_world birds_space = Some birds_data.
Proof. vm_compute. reflexivity. Qed.

Lemma birds_valid : valid zoo_world birds_space = true.
Proof. vm_compute. reflexivity. Qed.



(** The dog is the row of index 1 of the animals. *)
Lemma rows_are_fetched_by_their_targets_witness :
  load zoo_world animals_space = Some animals_data
  /\ valid zoo_world animals_space = true
  /\ (exists r,
        cells (cooccurrence_matrix animals_space) !! 1 = Some r
        /\ get_row animals_space "dog" zoo_world
           = (Ok (Some (mkMatrix (ncols (cooccurrence_matrix animals_space)) [r])),
              zoo_world))
  /\ get_rows animals_space (sd_id2row animals_data) zoo_world
     = (Ok (cooccurrence_matrix animals_space), zoo_world).
Proof.
  split; [exact animals_loaded|]. split; [exact animals_valid|].
  destruct (rows_are_fetched_by_their_targets zoo_world animals_space animals_data
              animals_loaded animals_valid) as [Hrow Hrows].
  split; [|exact Hrows].
  apply (Hrow 1 "dog"). reflexivity.
Defined.

(** The cat, then the eel and the dog. *)
Lemma get_rows_of_concatenation_witness :
  get_rows animals_space ["cat"] zoo_world
  = (Ok (mkMatrix 2 [[1; 2]]%Z), zoo_world)
  /\ get_rows animals_space ["eel"; "dog"] zoo_world
     = (Ok (mkMatrix 2 [[5; 6]; [3; 4]]%Z), zoo_world)
  /\ get_rows animals_space (["cat"] ++ ["eel"; "dog"]) zoo_world
     = (mat_vstack (mkMatrix 2 [[1; 2]]%Z) (mkMatrix 2 [[5; 6]; [3; 4]]%Z),
        zoo_world).
Proof.
  assert (H1 : get_rows animals_space ["cat"] zoo_world
               = (Ok (mkMatrix 2 [[1; 2]]%Z), zoo_world)) by by_compute.
  assert (H2 : get_rows animals_space ["eel"; "dog"] zoo_world
               = (Ok (mkMatrix 2 [[5; 6]; [3; 4]]%Z), zoo_world)) by by_compute.
  split; [exact H1|]. split; [exact H2|].
  destruct (get_rows_of_concatenation animals_space ["cat"] ["eel"; "dog"] zoo_world)
    as [Happ _].
  exact (Happ _ _ _ _ H1 H2).
Defined.

(** The two nearest neighbours of the dog are the first two of its three. *)
Lemma get_neighbours_prefix_witness :
  (2 <= 3)%Z
  /\ get_neighbours animals_space "dog" 3 (VSimilarity dot_similarity) None zoo_world
     = (Ok [("eel", 39%Z); ("dog", 25%Z); ("cat", 11%Z)], zoo_world)
  /\ get_neighbours animals_space "dog" 2 (VSimilarity dot_similarity) None zoo_world
     = (Ok (take (Z.to_nat 2) [("eel", 39%Z); ("dog", 25%Z); ("cat", 11%Z)]),
        zoo_world).
Proof.
  assert (Hle : (2 <= 3)%Z) by lia.
  assert (Hget : get_neighbours animals_space "dog" 3 (VSimilarity dot_similarity)
                   None zoo_world
                 = (Ok [("eel", 39%Z); ("dog", 25%Z); ("cat", 11%Z)], zoo_world))
    by by_compute.
  split; [exact Hle|]. split; [exact Hget|].
  exact (get_neighbours_prefix animals_space "dog" 2 3 (VSimilarity dot_similarity)
           None zoo_world zoo_world _ Hle Hget).
Defined.

(** The owl in the stacked Space is the owl of the birds. *)
Lemma get_row_of_vstack_witness :
  stacked = (Ok stacked_space, stacked_world)
  /\ get_row stacked_space "owl" stacked_world
     = (match (get_row animals_space "owl" zoo_world).1 with
        | Ok (Some v) => Ok (Some v)
        | _ => (get_row birds_space "owl" zoo_world).1
        end, stacked_world).
Proof.
  assert (Hv : stacked = (Ok stacked_space, stacked_world)) by by_compute.
  split; [exact Hv|].
  exact (get_row_of_vstack zoo_world stacked_world animals_space birds_space
           stacked_space animals_data birds_data "owl"
           animals_loaded animals_valid birds_loaded birds_valid Hv).
Defined.


(** Doubling twice logs two operations. *)
Lemma apply_twice_logs_in_order_witness :
  doubled = (Ok doubled_space, doubled_world)
  /\ doubled_twice = (Ok doubled_twice_space, doubled_twice_world)
  /\ exists d2,
       load doubled_twice_world doubled_twice_space = Some d2
       /\ sd_operations d2 = sd_operations animals_data ++ [doubling; doubling].
Proof.
  assert (H1 : doubled = (Ok doubled_space, doubled_world)) by by_compute.
  assert (H2 : doubled_twice = (Ok doubled_twice_space, doubled_twice_world))
    by by_compute.
  split; [exact H1|]. split; [exact H2|].
  destruct (apply_twice_logs_in_order zoo_world doubled_world doubled_twice_world
              animals_space doubled_space doubled_twice_space animals_data
              (VTransformation (Weighting doubling))
              (VTransformation (Weighting doubling)) animals_loaded H1 H2)
    as (t1 & t2 & d1 & d2 & Ht1 & Ht2 & _ & _ & _ & Hload & _ & _ & Hops & _).
  injection Ht1 as <-. injection Ht2 as <-.
  exists d2. split; [exact Hload | exact Hops].
Defined.

(** Both matrices and a learner: the learner is dropped. *)
Lemma direct_model_cannot_be_trained_witness :
  both_matrices !! "A" = Some (VMatrix animals_matrix)
  /\ both_matrices !! "B" = Some (VMatrix birds_matrix)
  /\ both_matrices !! "learner" = Some (VLearner toy_learner)
  /\ exists self,
       FullAdditive_init plain_learner both_matrices = Ok self
       /\ _regression_learner self = None.
Proof.
  assert (HA : both_matrices !! "A" = Some (VMatrix animals_matrix)) by by_compute.
  assert (HB : both_matrices !! "B" = Some (VMatrix birds_matrix)) by by_compute.
  split; [exact HA|]. split; [exact HB|]. split; [by_compute|].
  destruct (direct_model_cannot_be_trained plain_learner both_matrices
              animals_matrix birds_matrix animals_matrix animals_matrix
              animals_matrix HA HB) as (self & Hinit & Hnone & _).
  exists self. split; [exact Hinit | exact Hnone].
Defined.

(** Only [A]: the model holds the default learner and no matrices. *)
Lemma untrained_model_cannot_compose_witness :
  only_A !! "B" = None
  /\ FullAdditive_init plain_learner only_A
     = Ok (mkFullAdditive (Some (VLearner plain_learner)) false None None)
  /\ _compose animals_matrix animals_matrix
              (mkFullAdditive (Some (VLearner plain_learner)) false None None)
     = (Raise (AttributeError "'FullAdditive' object has no attribute '_mat_a_t'"),
        mkFullAdditive (Some (VLearner plain_learner)) false None None).
Proof.
  assert (HB : only_A !! "B" = None) by by_compute.
  assert (Hinit : FullAdditive_init plain_learner only_A
                  = Ok (mkFullAdditive (Some (VLearner plain_learner)) false None None))
    by by_compute.
  split; [exact HB|]. split; [exact Hinit|].
  exact (untrained_model_cannot_compose plain_learner only_A _ animals_matrix
           animals_matrix (or_intror HB) Hinit).
Defined.

(** Three animals beside two birds cannot be stacked: the training fails,
    with the intercept of the learner already taken over. *)
Lemma failed_training_keeps_the_new_intercept_witness :
  (let? design := mat_hstack animals_matrix birds_matrix in
   train toy_learner design animals_matrix)
  = Raise (ValueError "inconsistent shapes for hstack")
  /\ _train animals_matrix birds_matrix animals_matrix
            (mkFullAdditive (Some (VLearner toy_learner)) false None None)
     = (Raise (ValueError "inconsistent shapes for hstack"),
        mkFullAdditive (Some (VLearner toy_learner)) (has_intercept toy_learner)
                       None None).
Proof.
  assert (Hfail : (let? design := mat_hstack animals_matrix birds_matrix in
                   train toy_learner design animals_matrix)
                  = Raise (ValueError "inconsistent shapes for hstack"))
    by by_compute.
  split; [exact Hfail|].
  exact (failed_training_keeps_the_new_intercept
           (mkFullAdditive (Some (VLearner toy_learner)) false None None)
           toy_learner animals_matrix birds_matrix animals_matrix _
           eq_refl Hfail).
Defined.

(** A model of direct parameters, given a learner and trained. *)
Lemma set_learner_then_train_witness :
  mat_hstack (mkMatrix 2 [[1; 0]; [0; 1]]%Z) (mkMatrix 1 [[1]; [2]]%Z)
  = Ok (mkMatrix 3 [[1; 0; 1]; [0; 1; 2]]%Z)
  /\ train toy_learner (mkMatrix 3 [[1; 0; 1]; [0; 1; 2]]%Z) (mkMatrix 1 [[5]; [6]]%Z)
     = Ok (mkMatrix 1 [[5]; [6]; [17]]%Z)
  /\ (let* _ := set_regression_learner (VLearner toy_learner) in
      _train (mkMatrix 2 [[1; 0]; [0; 1]]%Z) (mkMatrix 1 [[1]; [2]]%Z)
             (mkMatrix 1 [[5]; [6]]%Z))
       (mkFullAdditive None false (Some animals_matrix) (Some birds_matrix))
     = (Ok tt,
        mkFullAdditive (Some (VLearner toy_learner)) (has_intercept toy_learner)
          (Some (mkMatrix (ncols (mkMatrix 1 [[5]; [6]; [17]]%Z))
                   (take (ncols (mkMatrix 2 [[1; 0]; [0; 1]]%Z))
                         (cells (mkMatrix 1 [[5]; [6]; [17]]%Z)))))
          (Some (mkMatrix (ncols (mkMatrix 1 [[5]; [6]; [17]]%Z))
                   (drop (ncols (mkMatrix 2 [[1; 0]; [0; 1]]%Z))
                         (cells (mkMatrix 1 [[5]; [6]; [17]]%Z)))))).
Proof.
  assert (Hstack : mat_hstack (mkMatrix 2 [[1; 0]; [0; 1]]%Z) (mkMatrix 1 [[1]; [2]]%Z)
                   = Ok (mkMatrix 3 [[1; 0; 1]; [0; 1; 2]]%Z)) by by_compute.
  assert (Htrain : train toy_learner (mkMatrix 3 [[1; 0; 1]; [0; 1; 2]]%Z)
                         (mkMatrix 1 [[5]; [6]]%Z)
                   = Ok (mkMatrix 1 [[5]; [6]; [17]]%Z)) by by_compute.
  split; [exact Hstack|]. split; [exact Htrain|].
  destruct (set_learner_then_train
              (mkFullAdditive None false (Some animals_matrix) (Some birds_matrix))
              (VLearner toy_learner)
              (mkMatrix 2 [[1; 0]; [0; 1]]%Z) (mkMatrix 1 [[1]; [2]]%Z)
              (mkMatrix 1 [[5]; [6]]%Z) (mkMatrix 3 [[1; 0; 1]; [0; 1; 2]]%Z)
              (mkMatrix 1 [[5]; [6]; [17]]%Z)) as [_ Hthen].
  exact (Hthen toy_learner eq_refl Hstack Htrain).
Defined.


End ScenarioFacts.
